(** * OceanGuard: the marker pipeline of [HazardMap.js]

    A shallow embedding of the unification, deduplication, ranking and
    radius-filtering code of [frontend/src/components/HazardMap.js]:
    [getCoordinateKey], [createUnifiedMarkerData] and the [pinsWithin]
    filter, together with the JavaScript built-ins they call
    ([parseFloat], [Number.prototype.toFixed], [Map], [Array.prototype.sort],
    [Array.prototype.slice], the [Date] comparisons).

    JavaScript numbers are IEEE 754 binary64 values and are modelled by
    Rocq's primitive [float]; record fields hold JSON scalars and are
    modelled by [JSValue]; exceptions are modelled by [Completion]. *)

From Stdlib Require Import ZArith NArith List String Ascii Bool Lia.
From Stdlib Require Import Floats DecimalN Sorted Permutation.
Import ListNotations.

Local Open Scope Z_scope.

#[local] Set Warnings "-inexact-float".

(* ================================================================== *)
(** ** Completions: a JavaScript computation returns or throws         *)
(* ================================================================== *)

Inductive Exn : Type :=
| RangeError
| TypeError
| OtherError (msg : string).

Inductive Completion (A : Type) : Type :=
| Normal (a : A)
| Throw (e : Exn).

Arguments Normal {A} a.
Arguments Throw {A} e.

Definition bind {A B : Type} (c : Completion A) (k : A -> Completion B)
  : Completion B :=
  match c with
  | Normal a => k a
  | Throw e => Throw e
  end.

Notation "x <- c ;; k" := (bind c (fun x => k))
  (at level 61, c at next level, right associativity).

(** [try { c } catch (error) { h }] *)
Definition tryCatch {A : Type} (c : Completion A) (h : Exn -> Completion A)
  : Completion A :=
  match c with
  | Normal a => Normal a
  | Throw e => h e
  end.

(** [arr.forEach(cb)] where the callback updates a state [S]. *)
Fixpoint forEach {S A : Type} (cb : S -> A -> Completion S) (arr : list A)
  (s : S) : Completion S :=
  match arr with
  | [] => Normal s
  | x :: rest => s' <- cb s x ;; forEach cb rest s'
  end.

(** [arr.forEach((x, index) => ...)], the index made explicit. *)
Fixpoint forEachFrom {S A : Type} (cb : nat -> S -> A -> Completion S)
  (i : nat) (arr : list A) (s : S) : Completion S :=
  match arr with
  | [] => Normal s
  | x :: rest => s' <- cb i s x ;; forEachFrom cb (Datatypes.S i) rest s'
  end.

(* ================================================================== *)
(** ** JavaScript values held by the record fields                     *)
(* ================================================================== *)

Inductive JSValue : Type :=
| JSUndefined
| JSNull
| JSBool (b : bool)
| JSNumber (x : float)
| JSString (s : string).

(** [!x] on a number: zero (of either sign) and NaN are falsy. *)
Definition numberFalsy (x : float) : bool := is_zero x || is_nan x.

(** ToBoolean. *)
Definition ToBoolean (v : JSValue) : bool :=
  match v with
  | JSUndefined | JSNull => false
  | JSBool b => b
  | JSNumber x => negb (numberFalsy x)
  | JSString s => negb (String.eqb s EmptyString)
  end.

(** [a || b] *)
Definition js_or (a b : JSValue) : JSValue :=
  if ToBoolean a then a else b.

(* ================================================================== *)
(** ** Decimal digits                                                   *)
(* ================================================================== *)

Definition isDigit (c : ascii) : bool :=
  let n := nat_of_ascii c in (48 <=? n)%nat && (n <=? 57)%nat.

Fixpoint uint_chars (d : Decimal.uint) : list ascii :=
  match d with
  | Decimal.Nil => []
  | Decimal.D0 d => "0"%char :: uint_chars d
  | Decimal.D1 d => "1"%char :: uint_chars d
  | Decimal.D2 d => "2"%char :: uint_chars d
  | Decimal.D3 d => "3"%char :: uint_chars d
  | Decimal.D4 d => "4"%char :: uint_chars d
  | Decimal.D5 d => "5"%char :: uint_chars d
  | Decimal.D6 d => "6"%char :: uint_chars d
  | Decimal.D7 d => "7"%char :: uint_chars d
  | Decimal.D8 d => "8"%char :: uint_chars d
  | Decimal.D9 d => "9"%char :: uint_chars d
  end.

(** The digits of a run of digit characters; any other character ends
    the run. *)
Fixpoint chars_uint (l : list ascii) : Decimal.uint :=
  match l with
  | [] => Decimal.Nil
  | c :: r =>
    if Ascii.eqb c "0" then Decimal.D0 (chars_uint r)
    else if Ascii.eqb c "1" then Decimal.D1 (chars_uint r)
    else if Ascii.eqb c "2" then Decimal.D2 (chars_uint r)
    else if Ascii.eqb c "3" then Decimal.D3 (chars_uint r)
    else if Ascii.eqb c "4" then Decimal.D4 (chars_uint r)
    else if Ascii.eqb c "5" then Decimal.D5 (chars_uint r)
    else if Ascii.eqb c "6" then Decimal.D6 (chars_uint r)
    else if Ascii.eqb c "7" then Decimal.D7 (chars_uint r)
    else if Ascii.eqb c "8" then Decimal.D8 (chars_uint r)
    else if Ascii.eqb c "9" then Decimal.D9 (chars_uint r)
    else Decimal.Nil
  end.

(** The decimal representation of a natural number, ["0"] for zero. *)
Definition digitsOf (n : N) : list ascii := uint_chars (N.to_uint n).

(** The number a run of decimal digits denotes. *)
Definition valueOfDigits (l : list ascii) : N := N.of_uint (chars_uint l).

Fixpoint spanDigits (l : list ascii) : list ascii * list ascii :=
  match l with
  | c :: r =>
    if isDigit c then let (d, rest) := spanDigits r in (c :: d, rest)
    else ([], l)
  | [] => ([], [])
  end.

(* ================================================================== *)
(** ** [parseFloat]                                                     *)
(* ================================================================== *)

(** White space and line terminators below U+0100 (TAB, LF, VT, FF, CR,
    SP, NBSP); strings are read as sequences of such code units. *)
Definition isWhiteSpace (c : ascii) : bool :=
  let n := nat_of_ascii c in
  ((9 <=? n)%nat && (n <=? 13)%nat) || (n =? 32)%nat || (n =? 160)%nat.

Fixpoint trimStart (l : list ascii) : list ascii :=
  match l with
  | c :: r => if isWhiteSpace c then trimStart r else l
  | [] => []
  end.

Fixpoint startsWith (p l : list ascii) : bool :=
  match p, l with
  | [], _ => true
  | a :: p', b :: l' => Ascii.eqb a b && startsWith p' l'
  | _ :: _, [] => false
  end.

(** The longest prefix that is a StrDecimalLiteral, read as
    [(-1)^neg * mant * 10^exp10] or as an infinity. *)
Inductive DecimalLiteral : Type :=
| LitInfinity (neg : bool)
| LitDecimal (neg : bool) (mant : N) (exp10 : Z).

Definition readSign (l : list ascii) : bool * list ascii :=
  match l with
  | c :: r =>
    if Ascii.eqb c "-" then (true, r)
    else if Ascii.eqb c "+" then (false, r)
    else (false, l)
  | [] => (false, [])
  end.

Definition readExponent (l : list ascii) : Z :=
  match l with
  | c :: r =>
    if Ascii.eqb c "e" || Ascii.eqb c "E" then
      let (neg, r') := readSign r in
      let (ds, _) := spanDigits r' in
      match ds with
      | [] => 0
      | _ => let e := Z.of_N (valueOfDigits ds) in if neg then - e else e
      end
    else 0
  | [] => 0
  end.

Definition readDecimalLiteral (l : list ascii) : option DecimalLiteral :=
  let (neg, r) := readSign l in
  if startsWith (list_ascii_of_string "Infinity") r then Some (LitInfinity neg)
  else
    let (ip, r1) := spanDigits r in
    let (fp, r3) :=
      match r1 with
      | c :: r2 => if Ascii.eqb c "." then spanDigits r2 else ([], r1)
      | [] => ([], r1)
      end in
    match ip ++ fp with
    | [] => None
    | ds =>
      Some (LitDecimal neg (valueOfDigits ds)
              (readExponent r3 - Z.of_nat (List.length fp)))
    end.

(** The binary64 value nearest to [(-1)^neg * mant * 10^exp10]
    (round to nearest, ties to even). *)
Definition roundDecimal (neg : bool) (mant : N) (exp10 : Z) : float :=
  match mant with
  | N0 => if neg then neg_zero else zero
  | Npos m =>
    let x :=
      SF2Prim
        (if 0 <=? exp10
         then binary_normalize prec emax (Zpos m * 10 ^ exp10) 0 false
         else SFdiv prec emax
                (S754_finite false m 0)
                (S754_finite false (Z.to_pos (10 ^ (- exp10))) 0)) in
    if neg then (- x)%float else x
  end.

(** [parseFloat] applied to a string. *)
Definition parseFloatString (s : string) : float :=
  match readDecimalLiteral (trimStart (list_ascii_of_string s)) with
  | None => nan
  | Some (LitInfinity neg) => if neg then neg_infinity else infinity
  | Some (LitDecimal neg mant exp10) => roundDecimal neg mant exp10
  end.

(** [parseFloat(v)]: the argument is converted to a string first.
    ["undefined"], ["null"], ["true"] and ["false"] have no numeric
    prefix; the string of a number reads back as that number, the sign
    of a zero being lost (both zeros print as ["0"]). *)
Definition parseFloat (v : JSValue) : float :=
  match v with
  | JSUndefined | JSNull | JSBool _ => nan
  | JSNumber x => if is_zero x then zero else x
  | JSString s => parseFloatString s
  end.

(* ================================================================== *)
(** ** [Number.prototype.toFixed] and [getCoordinateKey]                *)
(* ================================================================== *)

(** The integer [n] for which [n / 10^f] is closest to the real number
    [m * 2^e]; of two such integers, the larger one. *)
Definition roundScaled (m : positive) (e : Z) (f : Z) : Z :=
  if 0 <=? e then Zpos m * 2 ^ e * 10 ^ f
  else (2 * (Zpos m * 10 ^ f) + 2 ^ (- e)) / (2 * 2 ^ (- e)).

(** [m * 2^e >= 10^21] *)
Definition atLeast1e21 (m : positive) (e : Z) : bool :=
  if 0 <=? e then 10 ^ 21 <=? Zpos m * 2 ^ e
  else 10 ^ 21 * 2 ^ (- e) <=? Zpos m.

(** The digits of [n] with a decimal point before the last [f] of them,
    zero-padded on the left to [f + 1] digits. *)
Definition fixedNotation (n : N) (f : nat) : list ascii :=
  let m := digitsOf n in
  match f with
  | O => m
  | _ =>
    let k := List.length m in
    let m' := if (k <=? f)%nat then repeat "0"%char (f + 1 - k) ++ m else m in
    let k' := List.length m' in
    firstn (k' - f) m' ++ "."%char :: skipn (k' - f) m'
  end.

Definition signChars (neg : bool) : list ascii :=
  if neg then ["-"%char] else [].

(** The sign flag and the scaled integer [toFixed] prints for a number
    in its fixed-notation range (finite, magnitude below [10^21]). *)
Definition fixedParts (x : float) (f : Z) : option (bool * N) :=
  match Prim2SF x with
  | S754_zero _ => Some (false, 0%N)
  | S754_finite s m e =>
    if atLeast1e21 m e then None else Some (s, Z.to_N (roundScaled m e f))
  | _ => None
  end.

(* ------------------------------------------------------------------ *)
(** *** [Map]: string keys, iteration in insertion order                *)
(* ------------------------------------------------------------------ *)

Definition JSMap (V : Type) : Type := list (string * V).

Definition Map_has {V : Type} (m : JSMap V) (k : string) : bool :=
  existsb (fun kv => String.eqb (fst kv) k) m.

Fixpoint Map_get {V : Type} (m : JSMap V) (k : string) : option V :=
  match m with
  | [] => None
  | (k', v) :: rest => if String.eqb k' k then Some v else Map_get rest k
  end.

(** [m.set(k, v)]: a key already present keeps its place in the
    iteration order and only its value changes; a new key goes last. *)
Fixpoint Map_set {V : Type} (m : JSMap V) (k : string) (v : V) : JSMap V :=
  match m with
  | [] => [(k, v)]
  | (k', v') :: rest =>
    if String.eqb k' k then (k', v) :: rest
    else (k', v') :: Map_set rest k v
  end.

Definition Map_values {V : Type} (m : JSMap V) : list V := map snd m.

Definition Map_keys {V : Type} (m : JSMap V) : list string := map fst m.

(* ------------------------------------------------------------------ *)
(** *** [Array.prototype.sort], [slice], [filter]                       *)
(* ------------------------------------------------------------------ *)

(** [x] goes before the first element it compares strictly below. *)
Fixpoint sortInsert {A : Type} (cmp : A -> A -> Z) (x : A) (l : list A)
  : list A :=
  match l with
  | [] => [x]
  | y :: rest =>
    if cmp x y <=? 0 then x :: l else y :: sortInsert cmp x rest
  end.

(** [arr.sort(cmp)]: the sort is stable, so for a consistent comparator
    its result is the one of a stable insertion sort. *)
Definition Array_sort {A : Type} (cmp : A -> A -> Z) (arr : list A)
  : list A :=
  fold_right (sortInsert cmp) [] arr.

(** [arr.slice(0, n)] *)
Definition slice0 {A : Type} (n : nat) (arr : list A) : list A :=
  firstn n arr.

(** [arr.filter(p)] for a predicate that may throw. *)
Fixpoint Array_filter {A : Type} (p : A -> Completion bool) (arr : list A)
  : Completion (list A) :=
  match arr with
  | [] => Normal []
  | x :: rest =>
    keep <- p x ;;
    kept <- Array_filter p rest ;;
    Normal (if keep then x :: kept else kept)
  end.

(* ------------------------------------------------------------------ *)
(** *** Dates                                                           *)
(* ------------------------------------------------------------------ *)

(** The time value of a [Date], in milliseconds since the epoch;
    [None] is NaN, the time value of an Invalid Date. *)
Definition TimeValue : Type := option Z.

Definition TimeClip (t : Z) : TimeValue :=
  if Z.abs t <=? 8640000000000000 then Some t else None.

(** [a > b] on two [Date] objects: their time values are compared, and
    a comparison with NaN is false. *)
Definition Date_gt (a b : TimeValue) : bool :=
  match a, b with
  | Some x, Some y => y <? x
  | _, _ => false
  end.

(* ------------------------------------------------------------------ *)
(** *** Records                                                         *)
(* ------------------------------------------------------------------ *)

Module HazardEvent.
Record t : Type := {
  id : string;
  hazard_type : JSValue;
  status : JSValue;
  centroid_lat : JSValue;
  centroid_lon : JSValue;
  confidence : JSValue;
  created_at : JSValue
}.
End HazardEvent.

Module UserReport.
Record t : Type := {
  id : string;
  lat : JSValue;
  lon : JSValue;
  hazard_type : JSValue;
  isUserSubmission : JSValue;
  processed : JSValue;
  confidence : JSValue;
  timestamp : JSValue
}.
End UserReport.

Inductive MarkerType : Type := hazard_event | user_report.

Inductive MarkerData : Type :=
| EventData (event : HazardEvent.t)
| ReportData (report : UserReport.t).

Module Marker.
Record t : Type := {
  type : MarkerType;
  lat : JSValue;
  lon : JSValue;
  data : MarkerData;
  priority : Z;
  confidence : JSValue
}.
End Marker.

(* ================================================================== *)
(** ** The marker literals and the vocabulary of the properties       *)
(* ================================================================== *)

(** The marker a hazard event is inserted as. *)
Definition eventMarker (event : HazardEvent.t) : Marker.t :=
  {| Marker.type := hazard_event;
     Marker.lat := JSNumber (parseFloat (HazardEvent.centroid_lat event));
     Marker.lon := JSNumber (parseFloat (HazardEvent.centroid_lon event));
     Marker.data := EventData event;
     Marker.priority := 10;
     Marker.confidence :=
       js_or (HazardEvent.confidence event) (JSNumber 0.5) |}.

(** The marker a report is inserted as in a free cell. *)
Definition reportMarker (report : UserReport.t) : Marker.t :=
  {| Marker.type := user_report;
     Marker.lat := JSNumber (parseFloat (UserReport.lat report));
     Marker.lon := JSNumber (parseFloat (UserReport.lon report));
     Marker.data := ReportData report;
     Marker.priority :=
       if ToBoolean (UserReport.isUserSubmission report) then 8 else 5;
     Marker.confidence :=
       js_or (UserReport.confidence report) (JSNumber 0.3) |}.

(** The marker a recent own submission replaces the occupant with. *)
Definition overrideMarker (report : UserReport.t) : Marker.t :=
  {| Marker.type := user_report;
     Marker.lat := UserReport.lat report;
     Marker.lon := UserReport.lon report;
     Marker.data := ReportData report;
     Marker.priority := 9;
     Marker.confidence :=
       js_or (UserReport.confidence report) (JSNumber 0.3) |}.

Definition valueOr {A : Type} (c : Completion A) (d : A) : A :=
  match c with
  | Normal a => a
  | Throw _ => d
  end.

(** A key joins the end of the list unless the list has it already. *)
Definition addKey (acc : list string) (k : string) : list string :=
  if existsb (String.eqb k) acc then acc else acc ++ [k].

(** The distinct keys of a list, each at its first occurrence. *)
Definition firstOccurrences (l : list string) : list string :=
  fold_left addKey l [].

(** The record a marker refers to has a latitude or a longitude that
    parses to zero. *)
Definition zeroCoordinate (d : MarkerData) : bool :=
  match d with
  | EventData e =>
    is_zero (parseFloat (HazardEvent.centroid_lat e)) ||
    is_zero (parseFloat (HazardEvent.centroid_lon e))
  | ReportData r =>
    is_zero (parseFloat (UserReport.lat r)) ||
    is_zero (parseFloat (UserReport.lon r))
  end.

(** The confidence field of the record a marker refers to, and the
    default of its kind. *)
Definition sourceConfidence (d : MarkerData) : JSValue :=
  match d with
  | EventData e => HazardEvent.confidence e
  | ReportData r => UserReport.confidence r
  end.

Definition defaultConfidence (d : MarkerData) : JSValue :=
  match d with
  | EventData _ => JSNumber 0.5
  | ReportData _ => JSNumber 0.3
  end.

(** The digits of [n], zero-padded as [fixedNotation] pads them. *)
Definition paddedDigits (n : N) (f : nat) : list ascii :=
  let m := digitsOf n in
  if (List.length m <=? f)%nat
  then repeat "0"%char (f + 1 - List.length m) ++ m
  else m.

(** The characters of a fixed notation: digits and the point. *)
Definition isFixedChar (c : ascii) : bool := isDigit c || Ascii.eqb c ".".

(** What [toFixed] prints in its fixed-notation range. *)
Definition fixedChars (parts : bool * N) (f : nat) : list ascii :=
  signChars (fst parts) ++ fixedNotation (snd parts) f.

(** The value a number in the fixed-notation range rounds to at [f]
    decimals, multiplied by [10^f]. *)
Definition roundedAt (x : float) (f : Z) : option Z :=
  match fixedParts x f with
  | Some (neg, n) => Some (if neg then - Z.of_N n else Z.of_N n)
  | None => None
  end.

(** The comparator [(a, b) => rank(b) - rank(a)]. *)
Definition descendingBy {A : Type} (rank : A -> Z) (a b : A) : Z :=
  rank b - rank a.

(** [a] may stand before [b] in a list sorted by descending rank. *)
Definition rankGe {A : Type} (rank : A -> Z) (a b : A) : Prop :=
  rank b <= rank a.

(* ================================================================== *)
(** ** Concrete engines and sample records                              *)
(* ================================================================== *)

(** A [Number::toString] for the magnitudes [toFixed] hands over; the
    sample coordinates never reach it. *)
Definition sampleNumberToString (x : float) : string := "1e+21".

(** The integer part of a finite number. *)
Definition truncate (x : float) : option Z :=
  match Prim2SF x with
  | S754_zero _ => Some 0
  | S754_finite s m e =>
    let a := if 0 <=? e then Zpos m * 2 ^ e else Zpos m / 2 ^ (- e) in
    Some (if s then - a else a)
  | _ => None
  end.

(** A [Date] constructor that reads timestamps given in milliseconds
    and makes an Invalid Date of the strings it is given here, none of
    which is a date. *)
Definition sampleDate (v : JSValue) : Completion TimeValue :=
  match v with
  | JSNumber x =>
    Normal (match truncate x with Some t => TimeClip t | None => None end)
  | JSNull => Normal (Some 0)
  | JSBool b => Normal (Some (if b then 1 else 0))
  | JSUndefined | JSString _ => Normal None
  end.

(** A [Date] constructor that throws on every argument. *)
Definition throwingDate (v : JSValue) : Completion TimeValue :=
  Throw TypeError.

(** 2026-01-01T00:00:00Z, in milliseconds. *)
Definition sampleNow : Z := 1767225600000.

Definition sampleClock (index : nat) : Z := sampleNow.

(** A stand-in for Leaflet's [distanceTo] on the sample points: every
    point is 20000 m away from every other point. *)
Definition sampleDistance (a b : float * float) : float :=
  if (fst a =? fst b)%float && (snd a =? snd b)%float then 0%float
  else 20000%float.

Definition mkEvent (id : string) (lat lon conf : JSValue) : HazardEvent.t :=
  {| HazardEvent.id := id;
     HazardEvent.hazard_type := JSString "flood";
     HazardEvent.status := JSString "active";
     HazardEvent.centroid_lat := lat;
     HazardEvent.centroid_lon := lon;
     HazardEvent.confidence := conf;
     HazardEvent.created_at := JSUndefined |}.

Definition mkReport (id : string) (lat lon : JSValue) (own : bool)
  (ts : JSValue) : UserReport.t :=
  {| UserReport.id := id;
     UserReport.lat := lat;
     UserReport.lon := lon;
     UserReport.hazard_type := JSUndefined;
     UserReport.isUserSubmission := JSBool own;
     UserReport.processed := JSBool true;
     UserReport.confidence := JSUndefined;
     UserReport.timestamp := ts |}.

Definition dataId (d : MarkerData) : string :=
  match d with
  | EventData e => HazardEvent.id e
  | ReportData r => UserReport.id r
  end.

(** The timestamps of the sample reports: the clock reading, two
    minutes before it, and thirty-one minutes before it. *)
Definition tsNow : JSValue := JSNumber 1767225600000.
Definition tsTwoMinutesAgo : JSValue := JSNumber 1767225480000.
Definition ts31MinutesAgo : JSValue := JSNumber 1767223740000.

(** 2027-01-01T00:00:00Z, a year ahead of the clock reading. *)
Definition tsOneYearAhead : JSValue := JSNumber 1798761600000.

(** A hazard event at (13.0, 80.0) and one at (14.0, 80.0). *)
Definition eventA : HazardEvent.t :=
  mkEvent "eventA" (JSNumber 13.0) (JSNumber 80.0) (JSNumber 0.8).
Definition eventB : HazardEvent.t :=
  mkEvent "eventB" (JSNumber 14.0) (JSNumber 80.0) (JSNumber 0.8).

(** Reports in the cells of [eventA] and of [eventB]. *)
Definition ownNowA : UserReport.t :=
  mkReport "ownNowA" (JSNumber 13.0001) (JSNumber 80.0001) true tsNow.
Definition ownNowB : UserReport.t :=
  mkReport "ownNowB" (JSNumber 14.0001) (JSNumber 80.0001) true tsNow.
Definition ownLateA : UserReport.t :=
  mkReport "ownLateA" (JSNumber 13.0001) (JSNumber 80.0001) true
    ts31MinutesAgo.
Definition citizenA : UserReport.t :=
  mkReport "citizenA" (JSNumber 13.0001) (JSNumber 80.0001) false tsNow.
Definition ownStringsA : UserReport.t :=
  mkReport "ownStringsA" (JSString "13.0001") (JSString "80.0001") true
    tsTwoMinutesAgo.
Definition ownBadDateA : UserReport.t :=
  mkReport "ownBadDateA" (JSNumber 13.0001) (JSNumber 80.0001) true
    (JSString "yesterday").

(** An own report in the cell of [eventA] dated a year ahead, and one
    whose latitude is a string that [parseFloat] reads up to its first
    letter. *)
Definition ownFutureA : UserReport.t :=
  mkReport "ownFutureA" (JSNumber 13.0001) (JSNumber 80.0001) true
    tsOneYearAhead.

(** A hazard event at the default map centre. *)
Definition centerEvent : HazardEvent.t :=
  mkEvent "center" (JSNumber 13.0827) (JSNumber 80.2707) (JSNumber 0.8).

(** Records on the equator and on the prime meridian. *)
Definition equatorEvent : HazardEvent.t :=
  mkEvent "equator" (JSNumber 0) (JSNumber 80.0) (JSNumber 0.8).
Definition meridianReport : UserReport.t :=
  mkReport "meridian" (JSString "51.4779") (JSString "0") true tsNow.

(** A record without coordinates. *)
Definition noCoordinates : HazardEvent.t :=
  mkEvent "noCoordinates" JSUndefined JSNull (JSNumber 0.8).

(** A hazard event whose confidence is exactly zero. *)
Definition zeroConfidenceEvent : HazardEvent.t :=
  mkEvent "zeroConfidence" (JSNumber 13.0) (JSNumber 80.0) (JSNumber 0).

(** The map once [eventA] is in. *)
Definition groupsA : JSMap Marker.t := [("13.000_80.000"%string, eventMarker eventA)].

(** Sixty hazard events at latitudes 1, 2, ..., 60 and longitude 80,
    named by their latitude. *)
Definition numberedEvent (i : nat) : HazardEvent.t :=
  mkEvent (string_of_list_ascii (digitsOf (N.of_nat i)))
    (JSNumber (roundDecimal false (N.of_nat i) 0)) (JSNumber 80.0)
    (JSNumber 0.8).

Definition sixtyEvents : list HazardEvent.t := map numberedEvent (seq 1 60).

(** No string occurs twice. *)
Fixpoint allDistinct (l : list string) : bool :=
  match l with
  | [] => true
  | x :: rest => negb (existsb (String.eqb x) rest) && allDistinct rest
  end.

(* ================================================================== *)
(** ** Further built-ins and the vocabulary of the further properties   *)
(* ================================================================== *)

(** [-90 <= lat && lat <= 90 && -180 <= lon && lon <= 180] on numbers. *)
Definition inRange (lat lon : float) : bool :=
  ((-90 <=? lat) && (lat <=? 90) && (-180 <=? lon) && (lon <=? 180))%float.

(* ------------------------------------------------------------------ *)
(** *** ToNumber                                                        *)
(* ------------------------------------------------------------------ *)

Definition trimEnd (l : list ascii) : list ascii := rev (trimStart (rev l)).

(** The value of a digit in the given radix; letters count from ten. *)
Definition radixDigit (radix : N) (c : ascii) : option N :=
  let n := N.of_nat (nat_of_ascii c) in
  let v :=
    if isDigit c then Some (n - 48)%N
    else if ((97 <=? n) && (n <=? 102))%N then Some (n - 87)%N
    else if ((65 <=? n) && (n <=? 70))%N then Some (n - 55)%N
    else None in
  match v with
  | Some d => if (d <? radix)%N then Some d else None
  | None => None
  end.

Fixpoint radixValue (radix : N) (l : list ascii) (acc : N) : option N :=
  match l with
  | [] => Some acc
  | c :: r =>
    match radixDigit radix c with
    | Some d => radixValue radix r (acc * radix + d)%N
    | None => None
    end
  end.

(** A NonDecimalIntegerLiteral: [0x], [0o] or [0b] and at least one
    digit, and nothing else. *)
Definition readNonDecimal (l : list ascii) : option N :=
  match l with
  | z :: x :: ((_ :: _) as ds) =>
    if Ascii.eqb z "0" then
      if Ascii.eqb x "x" || Ascii.eqb x "X" then radixValue 16 ds 0
      else if Ascii.eqb x "o" || Ascii.eqb x "O" then radixValue 8 ds 0
      else if Ascii.eqb x "b" || Ascii.eqb x "B" then radixValue 2 ds 0
      else None
    else None
  | _ => None
  end.

(** [readExponent] and [readDecimalLiteral] with what is left of the
    input after the literal. *)
Definition readExponentRest (l : list ascii) : Z * list ascii :=
  match l with
  | c :: r =>
    if Ascii.eqb c "e" || Ascii.eqb c "E" then
      let (neg, r') := readSign r in
      let (ds, rest) := spanDigits r' in
      match ds with
      | [] => (0, l)
      | _ =>
        let e := Z.of_N (valueOfDigits ds) in
        (if neg then - e else e, rest)
      end
    else (0, l)
  | [] => (0, [])
  end.

Definition readDecimalLiteralRest (l : list ascii)
  : option (DecimalLiteral * list ascii) :=
  let (neg, r) := readSign l in
  if startsWith (list_ascii_of_string "Infinity") r
  then Some (LitInfinity neg, skipn 8 r)
  else
    let (ip, r1) := spanDigits r in
    let (fp, r3) :=
      match r1 with
      | c :: r2 => if Ascii.eqb c "." then spanDigits r2 else ([], r1)
      | [] => ([], r1)
      end in
    match ip ++ fp with
    | [] => None
    | ds =>
      let (e, rest) := readExponentRest r3 in
      Some (LitDecimal neg (valueOfDigits ds) (e - Z.of_nat (List.length fp)),
            rest)
    end.

Definition literalValue (lit : DecimalLiteral) : float :=
  match lit with
  | LitInfinity neg => if neg then neg_infinity else infinity
  | LitDecimal neg mant exp10 => roundDecimal neg mant exp10
  end.

(** StringToNumber: the whole string, white space trimmed at both
    ends, must be a numeric literal; the empty string is zero. *)
Definition StringToNumber (s : string) : float :=
  let l := trimEnd (trimStart (list_ascii_of_string s)) in
  match l with
  | [] => zero
  | _ =>
    match readNonDecimal l with
    | Some n => roundDecimal false n 0
    | None =>
      match readDecimalLiteralRest l with
      | Some (lit, []) => literalValue lit
      | _ => nan
      end
    end
  end.

Definition ToNumber (v : JSValue) : float :=
  match v with
  | JSUndefined => nan
  | JSNull => zero
  | JSBool b => if b then one else zero
  | JSNumber x => x
  | JSString s => StringToNumber s
  end.

(* ------------------------------------------------------------------ *)
(** *** [Math.round], [Math.floor], [Math.max], integers as numbers      *)
(* ------------------------------------------------------------------ *)

(** The number nearest to an integer (the integer itself below
    [2^53]). *)
Definition Z2float (z : Z) : float :=
  SF2Prim (binary_normalize prec emax z 0 false).

(** [Math.round(x)]: the integer nearest to [x], the larger one at a
    tie; a result of zero keeps the sign of [x]. *)
Definition Math_round (x : float) : float :=
  match Prim2SF x with
  | S754_finite s m e =>
    if 0 <=? e then x
    else
      let v := if s then Zneg m else Zpos m in
      let n := (2 * v + 2 ^ (- e)) / (2 * 2 ^ (- e)) in
      if n =? 0 then (if s then neg_zero else zero) else Z2float n
  | _ => x
  end.

(** [Math.floor(x)] *)
Definition Math_floor (x : float) : float :=
  match Prim2SF x with
  | S754_finite s m e =>
    if 0 <=? e then x
    else
      let v := if s then Zneg m else Zpos m in
      let n := v / 2 ^ (- e) in
      if n =? 0 then zero else Z2float n
  | _ => x
  end.

(** [Math.max(a, b)]: NaN if either is, and [+0] above [-0]. *)
Definition Math_max (a b : float) : float :=
  if is_nan a || is_nan b then nan
  else if (a <? b)%float then b
  else if (b <? a)%float then a
  else if get_sign a then b else a.

(* ------------------------------------------------------------------ *)
(** *** [createHazardIcon], [createUserReportIcon], [getConfidenceLevel] *)
(* ------------------------------------------------------------------ *)

(** What [obj[key]] finds on an object literal whose own values are
    strings: an own value, or a member inherited from
    [Object.prototype]. *)
Inductive PropertyValue : Type :=
| OwnString (s : string)
| PrototypeMember (name : string).

Definition objectPrototypeNames : list string :=
  ["constructor"; "hasOwnProperty"; "isPrototypeOf"; "propertyIsEnumerable";
   "toLocaleString"; "toString"; "valueOf"; "__proto__";
   "__defineGetter__"; "__defineSetter__"; "__lookupGetter__";
   "__lookupSetter__"]%string.

(** The property name a value is used as.  The string of a number
    begins with a digit or a minus sign, or is [NaN] or [Infinity]: it
    names no property of the literals below nor of [Object.prototype],
    and is left out. *)
Definition propertyName (key : JSValue) : option string :=
  match key with
  | JSString s => Some s
  | JSUndefined => Some "undefined"%string
  | JSNull => Some "null"%string
  | JSBool b => Some (if b then "true" else "false")%string
  | JSNumber _ => None
  end.

(** [literal[key]] *)
Definition lookupLiteral (literal : list (string * string)) (key : JSValue)
  : option PropertyValue :=
  match propertyName key with
  | None => None
  | Some name =>
    match find (fun kv => String.eqb (fst kv) name) literal with
    | Some (_, v) => Some (OwnString v)
    | None =>
      if existsb (String.eqb name) objectPrototypeNames
      then Some (PrototypeMember name) else None
    end
  end.

(** [found || fallback]: an inherited member is an object, hence
    truthy; an own string is truthy unless empty. *)
Definition orFallback (found : option PropertyValue) (fallback : string)
  : PropertyValue :=
  match found with
  | Some (OwnString s) =>
    if String.eqb s EmptyString then OwnString fallback else OwnString s
  | Some (PrototypeMember name) => PrototypeMember name
  | None => OwnString fallback
  end.

Definition colors : list (string * string) :=
  [("flood", "#3498db"); ("tsunami", "#e74c3c"); ("tides", "#16a085");
   ("earthquake", "#f39c12"); ("landslide", "#8e44ad");
   ("emergency", "#c0392b")]%string.

Definition icons : list (string * string) :=
  [("flood", "💧"); ("tsunami", "🌊"); ("tides", "🌀");
   ("earthquake", "⚡"); ("landslide", "⛰️"); ("emergency", "🚨")]%string.

(** The options [createHazardIcon] passes to [L.divIcon], the html
    template given by the values that fill its holes. *)
Module HazardIcon.
Record t : Type := {
  color : PropertyValue;
  icon : PropertyValue;
  size : float;
  fontSize : float;
  opacity : float;
  pulseAnimation : string;
  badgeColor : string;
  badgeNumber : float;
  className : string;
  iconSize : float * float;
  iconAnchor : float * float
}.
End HazardIcon.

(** [status === 'emergency'] *)
Definition isEmergency (status : JSValue) : bool :=
  match status with
  | JSString s => String.eqb s "emergency"
  | _ => false
  end.

(** [createHazardIcon(type, status, confidence = 0.5)] *)
Definition createHazardIcon (type status confidenceArg : JSValue)
  : HazardIcon.t :=
  let confidence :=
    match confidenceArg with
    | JSUndefined => JSNumber 0.5
    | _ => confidenceArg
    end in
  let c := ToNumber confidence in
  let color := orFallback (lookupLiteral colors type) "#7f8c8d" in
  let icon := orFallback (lookupLiteral icons type) "⚠️" in
  let '(size, opacity, pulseAnimation) :=
    if (0.8 <=? c)%float
    then (40, 1.0, "animation: pulse 2s infinite;"%string)%float
    else if (0.5 <=? c)%float
    then (35, 0.9, EmptyString)%float
    else (28, 0.7, EmptyString)%float in
  let '(size, opacity, pulseAnimation) :=
    if isEmergency status
    then (Math_max size 45, 1.0%float, "animation: pulse 1s infinite;"%string)
    else (size, opacity, pulseAnimation) in
  {| HazardIcon.color := color;
     HazardIcon.icon := icon;
     HazardIcon.size := size;
     HazardIcon.fontSize := (size * 0.6)%float;
     HazardIcon.opacity := opacity;
     HazardIcon.pulseAnimation := pulseAnimation;
     HazardIcon.badgeColor :=
       (if (0.8 <=? c)%float then "#27ae60"
        else if (0.5 <=? c)%float then "#f39c12" else "#e74c3c")%string;
     HazardIcon.badgeNumber := Math_round (c * 100)%float;
     HazardIcon.className := "hazard-marker";
     HazardIcon.iconSize := (size, size);
     HazardIcon.iconAnchor := (size / 2, size / 2)%float |}.

Module UserReportIcon.
Record t : Type := {
  bgColor : string;
  badgeColor : string;
  badgeIcon : string;
  className : string;
  iconSize : float * float;
  iconAnchor : float * float
}.
End UserReportIcon.

(** [createUserReportIcon(isUserSubmission = false, isProcessed = true)] *)
Definition createUserReportIcon (isUserSubmissionArg isProcessedArg : JSValue)
  : UserReportIcon.t :=
  let isUserSubmission :=
    match isUserSubmissionArg with
    | JSUndefined => JSBool false
    | _ => isUserSubmissionArg
    end in
  let isProcessed :=
    match isProcessedArg with
    | JSUndefined => JSBool true
    | _ => isProcessedArg
    end in
  let '(bgColor, badgeColor, badgeIcon) :=
    if ToBoolean isUserSubmission
    then ("linear-gradient(45deg, #4CAF50, #66BB6A)", "#2E7D32", "📍")%string
    else if negb (ToBoolean isProcessed)
    then ("linear-gradient(45deg, #F44336, #EF5350)", "#C62828", "⚠️")%string
    else ("linear-gradient(45deg, #2196F3, #42A5F5)", "#1565C0", "👤")%string
  in
  {| UserReportIcon.bgColor := bgColor;
     UserReportIcon.badgeColor := badgeColor;
     UserReportIcon.badgeIcon := badgeIcon;
     UserReportIcon.className := "user-report-marker";
     UserReportIcon.iconSize := (24, 24)%float;
     UserReportIcon.iconAnchor := (12, 12)%float |}.

(** [getConfidenceLevel(confidence)] *)
Definition getConfidenceLevel (confidence : JSValue) : string :=
  if (0.7 <=? ToNumber confidence)%float then "high"
  else if (0.4 <=? ToNumber confidence)%float then "medium"
  else "low".

(** The icon and the confidence level the marker loop of [HazardMap]
    computes for a hazard event:
    [createHazardIcon(data.hazard_type, data.status,
                      data.confidence || 0.5)] and
    [getConfidenceLevel(data.confidence)]; and the icon it computes
    for a report:
    [createUserReportIcon(data.isUserSubmission, data.processed)]. *)
Definition eventIcon (data : HazardEvent.t) : HazardIcon.t :=
  createHazardIcon (HazardEvent.hazard_type data) (HazardEvent.status data)
    (js_or (HazardEvent.confidence data) (JSNumber 0.5)).

Definition eventConfidenceLevel (data : HazardEvent.t) : string :=
  getConfidenceLevel (HazardEvent.confidence data).

Definition reportIcon (data : UserReport.t) : UserReportIcon.t :=
  createUserReportIcon (UserReport.isUserSubmission data)
    (UserReport.processed data).

(* ------------------------------------------------------------------ *)
(** *** Timestamps                                                      *)
(* ------------------------------------------------------------------ *)

Definition includesChar (c : ascii) (l : list ascii) : bool :=
  existsb (Ascii.eqb c) l.

(** [s.replace(a, b)] for one-character strings: the first occurrence
    only. *)
Fixpoint replaceFirst (a b : ascii) (l : list ascii) : list ascii :=
  match l with
  | [] => []
  | c :: r => if Ascii.eqb c a then b :: r else c :: replaceFirst a b r
  end.

(** The step [formatUTCTimestamp] and [getTimeAgo] share: a string
    without [T], [Z] or [+] is taken for a timestamp without time zone
    and turned into a UTC one. *)
Definition treatAsUTC (timestamp : JSValue) : JSValue :=
  match timestamp with
  | JSString s =>
    let l := list_ascii_of_string s in
    if negb (includesChar "T" l) && negb (includesChar "Z" l)
       && negb (includesChar "+" l)
    then JSString (string_of_list_ascii (replaceFirst " " "T" l) ++ "Z")
    else timestamp
  | _ => timestamp
  end.

(** What [getTimeAgo] returns: a fixed or locale text, or one of its
    three templates with the number that fills it. *)
Inductive TimeAgo : Type :=
| TimeText (s : string)
| MinutesAgo (diffMins : float)
| HoursAgo (diffHours : float)
| DaysAgo (diffDays : float).

(* ------------------------------------------------------------------ *)
(** *** The calls [FitBounds] makes on the map                          *)
(* ------------------------------------------------------------------ *)

Inductive MapCall : Type :=
| map_fitBounds (points : list (JSValue * JSValue)) (padding : Z * Z)
    (maxZoom : Z)
| map_setView (center : float * float) (zoom : Z).

(** [marker.lat && marker.lon && marker.lat >= -90 && marker.lat <= 90 &&
     marker.lon >= -180 && marker.lon <= 180], as [filter] reads it. *)
Definition boundsCandidate (marker : Marker.t) : bool :=
  ToBoolean (Marker.lat marker) && ToBoolean (Marker.lon marker) &&
  inRange (ToNumber (Marker.lat marker)) (ToNumber (Marker.lon marker)).

(* ------------------------------------------------------------------ *)
(** *** The sample records of [HazardMap]                               *)
(* ------------------------------------------------------------------ *)

(** The record [HazardMap] shows when it is given no hazard event;
    [createdAt] is [new Date().toISOString()]. *)
Definition sampleEvent (createdAt : string) : HazardEvent.t :=
  {| HazardEvent.id := "sample-1";
     HazardEvent.hazard_type := JSString "flood";
     HazardEvent.status := JSString "active";
     HazardEvent.centroid_lat := JSNumber 13.0827;
     HazardEvent.centroid_lon := JSNumber 80.2707;
     HazardEvent.confidence := JSNumber 0.8;
     HazardEvent.created_at := JSString createdAt |}.

(** The record [HazardMap] shows when it is given no user report. *)
Definition sampleReport (timestamp : string) : UserReport.t :=
  {| UserReport.id := "sample-report-1";
     UserReport.lat := JSNumber 13.1;
     UserReport.lon := JSNumber 80.3;
     UserReport.hazard_type := JSString "tsunami";
     UserReport.isUserSubmission := JSBool true;
     UserReport.processed := JSUndefined;
     UserReport.confidence := JSUndefined;
     UserReport.timestamp := JSString timestamp |}.

(** [hazardEvents && hazardEvents.length > 0 ? hazardEvents : [...]];
    [None] is a prop that is undefined or null. *)
Definition sampleHazardEvents (isoNow : string)
  (hazardEvents : option (list HazardEvent.t)) : list HazardEvent.t :=
  match hazardEvents with
  | Some (e :: rest) => e :: rest
  | _ => [sampleEvent isoNow]
  end.

(** [userReports && userReports.length > 0 ? userReports : [...]] *)
Definition sampleUserReports (isoNow : string)
  (userReports : option (list UserReport.t)) : list UserReport.t :=
  match userReports with
  | Some (r :: rest) => r :: rest
  | _ => [sampleReport isoNow]
  end.

(** Both coordinates of the report are numbers. *)
Definition hasNumberCoordinates (r : UserReport.t) : bool :=
  match UserReport.lat r, UserReport.lon r with
  | JSNumber _, JSNumber _ => true
  | _, _ => false
  end.

(** The coordinates [FitBounds] hands to [L.latLngBounds]. *)
Definition coordinatesOf (marker : Marker.t) : JSValue * JSValue :=
  (Marker.lat marker, Marker.lon marker).


(* ------------------------------------------------------------------ *)
(** *** Leaflet's [L.latLng]                                            *)
(* ------------------------------------------------------------------ *)

(** [L.latLng(a, b)] of Leaflet on two primitive values, after the
    library's [toLatLng] and its [LatLng] constructor.  For an [a] that
    is [undefined] or [null], or a [b] that is [undefined], no object is
    made, and the [distanceTo] that follows in [pinsWithin] fails with a
    TypeError.  Otherwise [new LatLng(a, b)] throws an [Error] when
    [isNaN(a) || isNaN(b)], and stores [+a] and [+b].  The message of
    the error is cut before the coordinates. *)
Definition Leaflet_latLng (a b : JSValue) : Completion (float * float) :=
  match a, b with
  | JSUndefined, _ | JSNull, _ | _, JSUndefined => Throw TypeError
  | _, _ =>
    if is_nan (ToNumber a) || is_nan (ToNumber b)
    then Throw (OtherError "Invalid LatLng object")
    else Normal (ToNumber a, ToNumber b)
  end.

Section HazardMap.

(** [Number::toString] for finite magnitudes of [10^21] and above
    (exponential notation with the shortest round-tripping digits);
    [toFixed] delegates to it there. *)
Variable Number_toString : float -> string.

(** [new Date(v)] for a field value [v]: string parsing is left to the
    engine, and the constructor is allowed to throw. *)
Variable Date_new : JSValue -> Completion TimeValue.

(** [Date.now()] as read while the callback handles the report at a
    given index of [userReports]. *)
Variable Date_now : nat -> Z.

(** [x.toFixed(fractionDigits)] *)
Definition toFixed (x : float) (fractionDigits : Z) : Completion string :=
  if (fractionDigits <? 0) || (100 <? fractionDigits) then Throw RangeError
  else
    match Prim2SF x with
    | S754_nan => Normal "NaN"%string
    | S754_infinity s => Normal (if s then "-Infinity" else "Infinity")%string
    | S754_zero _ =>
      Normal (string_of_list_ascii
                (fixedNotation 0 (Z.to_nat fractionDigits)))
    | S754_finite s m e =>
      if atLeast1e21 m e then
        Normal (string_of_list_ascii (signChars s)
                  ++ Number_toString (abs x))%string
      else
        Normal (string_of_list_ascii
                  (signChars s ++
                   fixedNotation (Z.to_N (roundScaled m e fractionDigits))
                     (Z.to_nat fractionDigits)))
    end.

(** [const getCoordinateKey = (lat, lon, precision = 3) =>
      `${lat.toFixed(precision)}_${lon.toFixed(precision)}`]
    Every call in the file passes the precision, so the default of the
    parameter is left to the caller. *)
Definition getCoordinateKey (lat lon : float) (precision : Z)
  : Completion string :=
  a <- toFixed lat precision ;;
  b <- toFixed lon precision ;;
  Normal (a ++ "_" ++ b)%string.

(* ------------------------------------------------------------------ *)
(** *** [createUnifiedMarkerData]                                       *)
(* ------------------------------------------------------------------ *)

Definition GRID_PRECISION : Z := 3.

(** [!lat || !lon || isNaN(lat) || isNaN(lon) ||
     lat < -90 || lat > 90 || lon < -180 || lon > 180] *)
Definition invalidCoordinates (lat lon : float) : bool :=
  numberFalsy lat || numberFalsy lon || is_nan lat || is_nan lon ||
  (lat <? -90)%float || (90 <? lat)%float ||
  (lon <? -180)%float || (180 <? lon)%float.

Definition Groups : Type := JSMap Marker.t.

(** The callback of [hazardEvents.forEach]; [console.warn] writes to
    the console only and is left out. *)
Definition hazardCallback (coordinateGroups : Groups)
  (event : HazardEvent.t) : Completion Groups :=
  let lat := parseFloat (HazardEvent.centroid_lat event) in
  let lon := parseFloat (HazardEvent.centroid_lon event) in
  if invalidCoordinates lat lon then Normal coordinateGroups
  else
    key <- getCoordinateKey lat lon GRID_PRECISION ;;
    if negb (Map_has coordinateGroups key) then
      Normal (Map_set coordinateGroups key
                {| Marker.type := hazard_event;
                   Marker.lat := JSNumber lat;
                   Marker.lon := JSNumber lon;
                   Marker.data := EventData event;
                   Marker.priority := 10;
                   Marker.confidence :=
                     js_or (HazardEvent.confidence event) (JSNumber 0.5) |})
    else Normal coordinateGroups.

(** The callback of [userReports.forEach], for the report at [index]. *)
Definition reportCallback (index : nat) (coordinateGroups : Groups)
  (report : UserReport.t) : Completion Groups :=
  let lat := parseFloat (UserReport.lat report) in
  let lon := parseFloat (UserReport.lon report) in
  if invalidCoordinates lat lon then Normal coordinateGroups
  else
    key <- getCoordinateKey lat lon GRID_PRECISION ;;
    if negb (Map_has coordinateGroups key) then
      Normal (Map_set coordinateGroups key
                {| Marker.type := user_report;
                   Marker.lat := JSNumber lat;
                   Marker.lon := JSNumber lon;
                   Marker.data := ReportData report;
                   Marker.priority :=
                     if ToBoolean (UserReport.isUserSubmission report)
                     then 8 else 5;
                   Marker.confidence :=
                     js_or (UserReport.confidence report) (JSNumber 0.3) |})
    else if ToBoolean (UserReport.isUserSubmission report) then
      tryCatch
        (reportTime <- Date_new (UserReport.timestamp report) ;;
         let thirtyMinutesAgo :=
           TimeClip (Date_now index - 30 * 60 * 1000) in
         if Date_gt reportTime thirtyMinutesAgo then
           Normal (Map_set coordinateGroups key
                     {| Marker.type := user_report;
                        Marker.lat := UserReport.lat report;
                        Marker.lon := UserReport.lon report;
                        Marker.data := ReportData report;
                        Marker.priority := 9;
                        Marker.confidence :=
                          js_or (UserReport.confidence report)
                            (JSNumber 0.3) |})
         else Normal coordinateGroups)
        (fun _ => Normal coordinateGroups)
    else Normal coordinateGroups.

(** The comparator [(a, b) => b.priority - a.priority]. *)
Definition byPriorityDesc (a b : Marker.t) : Z :=
  Marker.priority b - Marker.priority a.

Definition createUnifiedMarkerData (hazardEvents : list HazardEvent.t)
  (userReports : list UserReport.t) : Completion (list Marker.t) :=
  withEvents <- forEach hazardCallback hazardEvents [] ;;
  coordinateGroups <- forEachFrom reportCallback 0%nat userReports withEvents ;;
  Normal (slice0 50 (Array_sort byPriorityDesc (Map_values coordinateGroups))).

(* ------------------------------------------------------------------ *)
(** *** [pinsWithin]                                                    *)
(* ------------------------------------------------------------------ *)

(** Leaflet's [L.LatLng] objects, [L.latLng(lat, lng)] (which rejects
    coordinates that are not numbers by throwing) and
    [a.distanceTo(b)], the great-circle distance in metres. *)
Variable LatLng : Type.
Variable L_latLng : JSValue -> JSValue -> Completion LatLng.
Variable distanceTo : LatLng -> LatLng -> float.

Definition pinsWithin (unifiedMarkers : list Marker.t)
  (mapCenter : float * float) (pinsRadius : float)
  : Completion (list Marker.t) :=
  centerLL <- L_latLng (JSNumber (fst mapCenter)) (JSNumber (snd mapCenter)) ;;
  Array_filter
    (fun m =>
       if negb (ToBoolean (Marker.lat m)) || negb (ToBoolean (Marker.lon m))
       then Normal false
       else
         p <- L_latLng (Marker.lat m) (Marker.lon m) ;;
         let d := distanceTo centerLL p in
         Normal (d <=? pinsRadius)%float)
    unifiedMarkers.

(* ------------------------------------------------------------------ *)
(** *** The callbacks as pure steps, and what they keep true            *)
(* ------------------------------------------------------------------ *)

Definition eventValid (e : HazardEvent.t) : bool :=
  negb (invalidCoordinates (parseFloat (HazardEvent.centroid_lat e))
          (parseFloat (HazardEvent.centroid_lon e))).

Definition reportValid (r : UserReport.t) : bool :=
  negb (invalidCoordinates (parseFloat (UserReport.lat r))
          (parseFloat (UserReport.lon r))).

(** The grid key at [GRID_PRECISION]. *)
Definition gridKey (lat lon : float) : string :=
  valueOr (getCoordinateKey lat lon GRID_PRECISION) EmptyString.

(** The grid key of a marker, its stored coordinates read the way the
    callbacks read a record's. *)
Definition markerKey (m : Marker.t) : Completion string :=
  getCoordinateKey (parseFloat (Marker.lat m)) (parseFloat (Marker.lon m))
    GRID_PRECISION.

Definition eventKey (e : HazardEvent.t) : string :=
  gridKey (parseFloat (HazardEvent.centroid_lat e))
    (parseFloat (HazardEvent.centroid_lon e)).

Definition reportKey (r : UserReport.t) : string :=
  gridKey (parseFloat (UserReport.lat r)) (parseFloat (UserReport.lon r)).

(** The report's timestamp parses to a time later than thirty minutes
    before the clock reading [now]. *)
Definition recentAt (now : Z) (r : UserReport.t) : bool :=
  match Date_new (UserReport.timestamp r) with
  | Normal reportTime => Date_gt reportTime (TimeClip (now - 30 * 60 * 1000))
  | Throw _ => false
  end.

Definition hazardStep (g : Groups) (e : HazardEvent.t) : Groups :=
  valueOr (hazardCallback g e) g.

Definition reportStep (index : nat) (g : Groups) (r : UserReport.t)
  : Groups :=
  valueOr (reportCallback index g r) g.

Fixpoint reportsFrom (index : nat) (rs : list UserReport.t) (g : Groups)
  : Groups :=
  match rs with
  | [] => g
  | r :: rest => reportsFrom (S index) rest (reportStep index g r)
  end.

(** The map as it stands when both loops are over. *)
Definition finalGroups (hs : list HazardEvent.t) (rs : list UserReport.t)
  : Groups :=
  reportsFrom 0 rs (fold_left hazardStep hs []).

Inductive Placed (hs : list HazardEvent.t) (rs : list UserReport.t)
  (k : string) (m : Marker.t) : Prop :=
| PlacedEvent (e : HazardEvent.t) :
    In e hs -> eventValid e = true -> eventKey e = k ->
    m = eventMarker e -> Placed hs rs k m
| PlacedReport (r : UserReport.t) :
    In r rs -> reportValid r = true -> reportKey r = k ->
    m = reportMarker r -> Placed hs rs k m
| PlacedOverride (r : UserReport.t) (i : nat) :
    nth_error rs i = Some r -> reportValid r = true -> reportKey r = k ->
    ToBoolean (UserReport.isUserSubmission r) = true ->
    recentAt (Date_now i) r = true ->
    m = overrideMarker r -> Placed hs rs k m.

Definition GroupsOk (hs : list HazardEvent.t) (rs : list UserReport.t)
  (g : Groups) : Prop :=
  NoDup (Map_keys g) /\
  Forall (fun km => Placed hs rs (fst km) (snd km)) g.

(** The cells of the records that pass the validation, in input order. *)
Definition cellsOfEvents (hs : list HazardEvent.t) : list string :=
  flat_map (fun e => if eventValid e then [eventKey e] else []) hs.

Definition cellsOfReports (rs : list UserReport.t) : list string :=
  flat_map (fun r => if reportValid r then [reportKey r] else []) rs.

(** What the callback tests, [reportTime > thirtyMinutesAgo]: the
    timestamp of [r] is a valid date later than thirty minutes before
    [now].  Nothing bounds it from above. *)
Definition afterThirtyMinutesAgo (now : Z) (r : UserReport.t) : Prop :=
  exists t,
    Date_new (UserReport.timestamp r) = Normal (Some t) /\
    now - 30 * 60 * 1000 < t.

(** The window as the specification words it, "within the last 30
    minutes of processing time": the timestamp of [r] is a valid date
    later than thirty minutes before [now] and not later than [now]. *)
Definition withinLast30Minutes (now : Z) (r : UserReport.t) : Prop :=
  exists t,
    Date_new (UserReport.timestamp r) = Normal (Some t) /\
    now - 30 * 60 * 1000 < t <= now.


(* ------------------------------------------------------------------ *)
(** *** Vocabulary of the further properties                            *)
(* ------------------------------------------------------------------ *)

(** The cells of all the records that pass the validation. *)
Definition validCells (hs : list HazardEvent.t) (rs : list UserReport.t)
  : list string :=
  firstOccurrences (cellsOfEvents hs ++ cellsOfReports rs).

(** The first event of the list that passes the validation and falls
    in the cell [k]. *)
Definition firstEventIn (hs : list HazardEvent.t) (k : string)
  : option HazardEvent.t :=
  find (fun e => eventValid e && String.eqb (eventKey e) k) hs.

(* ------------------------------------------------------------------ *)
(** *** [FitBounds], the marker loop of [HazardMap], the timestamps      *)
(* ------------------------------------------------------------------ *)

(** The call the effect of [FitBounds] makes on the map:
    [map.fitBounds(L.latLngBounds(validMarkers),
                   { padding: [20, 20], maxZoom: 12 })]
    or [map.setView([10.0, 80.0], 6)]. *)
Definition FitBounds (hazardEvents : list HazardEvent.t)
  (userReports : list UserReport.t) : Completion MapCall :=
  unifiedMarkers <- createUnifiedMarkerData hazardEvents userReports ;;
  let validMarkers :=
    map (fun marker => (Marker.lat marker, Marker.lon marker))
      (filter boundsCandidate unifiedMarkers) in
  if (0 <? List.length validMarkers)%nat
  then Normal (map_fitBounds validMarkers (20, 20) 12)
  else Normal (map_setView (10.0, 80.0)%float 6).

(** [const unifiedMarkers =
       createUnifiedMarkerData(sampleHazardEvents, sampleUserReports)]
    in [HazardMap]; the two strings are the [new Date().toISOString()]
    of the two sample records. *)
Definition HazardMap_unifiedMarkers (isoEvent isoReport : string)
  (hazardEvents : option (list HazardEvent.t))
  (userReports : option (list UserReport.t)) : Completion (list Marker.t) :=
  createUnifiedMarkerData (sampleHazardEvents isoEvent hazardEvents)
    (sampleUserReports isoReport userReports).

(** [v.toFixed(digits)] on a field value: only a number has the
    method. *)
Definition call_toFixed (v : JSValue) (digits : Z) : Completion string :=
  match v with
  | JSNumber x => toFixed x digits
  | _ => Throw TypeError
  end.

(** The two numbers of the popup's location line,
    [{marker.lat.toFixed(4)}°N, {marker.lon.toFixed(4)}°E]. *)
Definition markerLocation (marker : Marker.t) : Completion (string * string) :=
  lat <- call_toFixed (Marker.lat marker) 4 ;;
  lon <- call_toFixed (Marker.lon marker) 4 ;;
  Normal (lat, lon).

(** [date.toLocaleString()] and [date.toLocaleDateString()] of a valid
    date, which depend on the locale of the engine. *)
Variable Date_toLocaleString : Z -> string.
Variable Date_toLocaleDateString : Z -> string.

(** [formatUTCTimestamp(timestamp)]; [console.error] is left out. *)
Definition formatUTCTimestamp (timestamp : JSValue) : Completion string :=
  if negb (ToBoolean timestamp) then Normal "Unknown time"%string
  else
    tryCatch
      (date <- Date_new (treatAsUTC timestamp) ;;
       match date with
       | None => Normal "Invalid date"%string
       | Some t => Normal (Date_toLocaleString t)
       end)
      (fun _ => Normal "Unknown time"%string).

(** [getTimeAgo(dateString)], called at the time [now]. *)
Definition getTimeAgo (now : Z) (dateString : JSValue) : Completion TimeAgo :=
  if negb (ToBoolean dateString) then Normal (TimeText "Unknown time")
  else
    tryCatch
      (eventTime <- Date_new (treatAsUTC dateString) ;;
       match eventTime with
       | None => Normal (TimeText "Invalid date")
       | Some t =>
         let diffMs := (Z2float now - Z2float t)%float in
         let diffMins := Math_floor (diffMs / 60000) in
         let diffHours := Math_floor (diffMins / 60) in
         let diffDays := Math_floor (diffHours / 24) in
         if (diffMins <? 1)%float then Normal (TimeText "Just now")
         else if (diffMins <? 60)%float then Normal (MinutesAgo diffMins)
         else if (diffHours <? 24)%float then Normal (HoursAgo diffHours)
         else if (diffDays <? 7)%float then Normal (DaysAgo diffDays)
         else Normal (TimeText (Date_toLocaleDateString t))
       end)
      (fun _ => Normal (TimeText "Unknown time")).

(* ================================================================== *)
(** ** Properties                                                       *)
(* ================================================================== *)

(** *** The key is always produced at the grid precision *)

Lemma toFixed_grid (x : float) :
  exists s, toFixed x GRID_PRECISION = Normal s.
Proof.
  unfold toFixed, GRID_PRECISION. cbn [Z.ltb Z.compare orb].
  destruct (Prim2SF x) as [sg|sg| |sg m e]; try (eexists; reflexivity).
  destruct (atLeast1e21 m e); eexists; reflexivity.
Qed.

Lemma getCoordinateKey_grid (lat lon : float) :
  getCoordinateKey lat lon GRID_PRECISION = Normal (gridKey lat lon).
Proof.
  unfold gridKey, getCoordinateKey.
  destruct (toFixed_grid lat) as [a ->], (toFixed_grid lon) as [b ->].
  reflexivity.
Qed.

(** *** The callbacks never throw: their pure reading *)

Lemma hazardCallback_step (g : Groups) (e : HazardEvent.t) :
  hazardCallback g e = Normal (hazardStep g e).
Proof.
  unfold hazardStep, hazardCallback.
  destruct (invalidCoordinates _ _); [reflexivity|].
  rewrite getCoordinateKey_grid. cbn [bind valueOr].
  destruct (negb _); reflexivity.
Qed.

Lemma hazardStep_eq (g : Groups) (e : HazardEvent.t) :
  hazardStep g e =
  if eventValid e then
    if Map_has g (eventKey e) then g
    else Map_set g (eventKey e) (eventMarker e)
  else g.
Proof.
  unfold hazardStep, hazardCallback, eventValid, eventKey.
  destruct (invalidCoordinates _ _); [reflexivity|].
  rewrite getCoordinateKey_grid. cbn [bind valueOr negb].
  destruct (Map_has _ _); reflexivity.
Qed.

Lemma reportCallback_step (i : nat) (g : Groups) (r : UserReport.t) :
  reportCallback i g r = Normal (reportStep i g r).
Proof.
  unfold reportStep, reportCallback.
  destruct (invalidCoordinates _ _); [reflexivity|].
  rewrite getCoordinateKey_grid. cbn [bind valueOr].
  destruct (negb _); [reflexivity|].
  destruct (ToBoolean _); [|reflexivity].
  destruct (Date_new _) as [t|ex]; cbn [bind tryCatch valueOr]; [|reflexivity].
  destruct (Date_gt _ _); reflexivity.
Qed.

Lemma reportStep_eq (i : nat) (g : Groups) (r : UserReport.t) :
  reportStep i g r =
  if reportValid r then
    if Map_has g (reportKey r) then
      if ToBoolean (UserReport.isUserSubmission r) && recentAt (Date_now i) r
      then Map_set g (reportKey r) (overrideMarker r)
      else g
    else Map_set g (reportKey r) (reportMarker r)
  else g.
Proof.
  unfold reportStep, reportCallback, reportValid, reportKey, recentAt.
  destruct (invalidCoordinates _ _); [reflexivity|].
  rewrite getCoordinateKey_grid. cbn [bind valueOr negb].
  destruct (Map_has _ _); cbn [negb]; [|reflexivity].
  destruct (ToBoolean _); cbn [andb]; [|reflexivity].
  destruct (Date_new _) as [t|ex]; cbn [bind tryCatch valueOr]; [|reflexivity].
  destruct (Date_gt _ _); reflexivity.
Qed.

Lemma forEach_hazard (hs : list HazardEvent.t) (g : Groups) :
  forEach hazardCallback hs g = Normal (fold_left hazardStep hs g).
Proof.
  revert g; induction hs as [|e hs IH]; intro g; cbn [forEach fold_left].
  - reflexivity.
  - rewrite hazardCallback_step. cbn [bind]. apply IH.
Qed.

Lemma forEachFrom_report (rs : list UserReport.t) (i : nat) (g : Groups) :
  forEachFrom reportCallback i rs g = Normal (reportsFrom i rs g).
Proof.
  revert i g; induction rs as [|r rs IH]; intros i g;
    cbn [forEachFrom reportsFrom].
  - reflexivity.
  - rewrite reportCallback_step. cbn [bind]. apply IH.
Qed.

Lemma createUnifiedMarkerData_eq (hs : list HazardEvent.t)
  (rs : list UserReport.t) :
  createUnifiedMarkerData hs rs =
  Normal (slice0 50
            (Array_sort byPriorityDesc (Map_values (finalGroups hs rs)))).
Proof.
  unfold createUnifiedMarkerData, finalGroups.
  rewrite forEach_hazard. cbn [bind].
  rewrite forEachFrom_report. reflexivity.
Qed.

(** *** The insertion-ordered map *)

Section MapFacts.
Context {V : Type}.
Implicit Types (g : JSMap V) (k : string) (v : V).

Lemma Map_has_keys g k : Map_has g k = true <-> In k (Map_keys g).
Proof.
  unfold Map_has, Map_keys. rewrite existsb_exists, in_map_iff.
  split.
  - intros [[k' v'] [H1 H2]]. exists (k', v'). cbn in *.
    apply String.eqb_eq in H2. auto.
  - intros [[k' v'] [H1 H2]]. exists (k', v'). cbn in *.
    subst. split; [assumption | apply String.eqb_refl].
Qed.

Lemma Map_has_false g k : Map_has g k = false <-> ~ In k (Map_keys g).
Proof.
  rewrite <- Map_has_keys. destruct (Map_has g k); split; congruence.
Qed.

Lemma Map_has_cons g k k' v :
  Map_has ((k', v) :: g) k = String.eqb k' k || Map_has g k.
Proof. reflexivity. Qed.

Lemma Map_set_fresh g k v :
  Map_has g k = false -> Map_set g k v = g ++ [(k, v)].
Proof.
  induction g as [|[k' v'] g IH]; intro H; cbn [Map_set app].
  - reflexivity.
  - rewrite Map_has_cons in H. apply orb_false_iff in H as [-> H].
    now rewrite IH.
Qed.

Lemma Map_keys_set_present g k v :
  Map_has g k = true -> Map_keys (Map_set g k v) = Map_keys g.
Proof.
  induction g as [|[k' v'] g IH]; intro H; cbn [Map_set].
  - discriminate.
  - rewrite Map_has_cons in H. destruct (String.eqb k' k) eqn:E.
    + reflexivity.
    + cbn [orb] in H. unfold Map_keys in *. cbn [map]. f_equal. now apply IH.
Qed.

Lemma Map_keys_set g k v :
  Map_keys (Map_set g k v) =
  if Map_has g k then Map_keys g else Map_keys g ++ [k].
Proof.
  destruct (Map_has g k) eqn:E.
  - now apply Map_keys_set_present.
  - rewrite Map_set_fresh by assumption. unfold Map_keys.
    now rewrite map_app.
Qed.

Lemma In_Map_set g k v kv :
  In kv (Map_set g k v) -> kv = (k, v) \/ In kv g.
Proof.
  induction g as [|[k' v'] g IH]; cbn [Map_set].
  - intros [<-|[]]. now left.
  - destruct (String.eqb k' k) eqn:E.
    + apply String.eqb_eq in E. subst k'.
      intros [<-|H]; [now left | right; now right].
    + intros [<-|H]; [right; now left|].
      destruct (IH H); [now left | right; now right].
Qed.

Lemma NoDup_keys_set g k v :
  NoDup (Map_keys g) -> NoDup (Map_keys (Map_set g k v)).
Proof.
  intro H. rewrite Map_keys_set. destruct (Map_has g k) eqn:E; [assumption|].
  apply Map_has_false in E.
  apply NoDup_rev in H. rewrite <- (rev_involutive (_ ++ _)).
  apply NoDup_rev. rewrite rev_app_distr. cbn. constructor; [|assumption].
  now rewrite <- in_rev.
Qed.

Lemma Forall_Map_set (P : string * V -> Prop) g k v :
  Forall P g -> P (k, v) -> Forall P (Map_set g k v).
Proof.
  intros Hg Hkv. apply Forall_forall. intros kv Hin.
  destruct (In_Map_set _ _ _ _ Hin) as [->|H]; [assumption|].
  now apply (proj1 (Forall_forall P g) Hg).
Qed.

Lemma Map_get_set_same g k v : Map_get (Map_set g k v) k = Some v.
Proof.
  induction g as [|[k' v'] g IH]; cbn.
  - now rewrite String.eqb_refl.
  - destruct (String.eqb k' k) eqn:E; cbn; now rewrite E.
Qed.

Lemma Map_get_In g k v : Map_get g k = Some v -> In (k, v) g.
Proof.
  induction g as [|[k' v'] g IH]; cbn; [discriminate|].
  destruct (String.eqb k' k) eqn:E.
  - apply String.eqb_eq in E. intros [= ->]. left. now subst.
  - intro H. right. now apply IH.
Qed.

Lemma Map_get_has g k v : Map_get g k = Some v -> Map_has g k = true.
Proof.
  intro H. apply Map_has_keys. apply Map_get_In in H.
  unfold Map_keys. now apply (in_map fst) in H.
Qed.
End MapFacts.

(** *** Sorting by descending rank *)

Section SortFacts.
Context {A : Type} (rank : A -> Z).

Lemma sortInsert_perm (x : A) (l : list A) :
  Permutation (sortInsert (descendingBy rank) x l) (x :: l).
Proof.
  induction l as [|y l IH]; cbn [sortInsert].
  - reflexivity.
  - destruct ((descendingBy rank) x y <=? 0); [reflexivity|].
    rewrite IH. apply perm_swap.
Qed.

Lemma Array_sort_perm (l : list A) : Permutation (Array_sort (descendingBy rank) l) l.
Proof.
  induction l as [|x l IH]; cbn.
  - constructor.
  - fold (Array_sort (descendingBy rank) l). rewrite sortInsert_perm. now constructor.
Qed.

Lemma sortInsert_sorted (x : A) (l : list A) :
  StronglySorted (rankGe rank) l ->
  StronglySorted (rankGe rank) (sortInsert (descendingBy rank) x l).
Proof.
  induction 1 as [|y l Hs IH Hy]; cbn [sortInsert].
  - repeat constructor.
  - destruct ((descendingBy rank) x y <=? 0) eqn:E; unfold descendingBy in E.
    + apply Z.leb_le in E. constructor; [now constructor|].
      constructor; [unfold rankGe; lia|].
      eapply Forall_impl; [|exact Hy]. unfold rankGe. intros; lia.
    + apply Z.leb_gt in E. constructor; [assumption|].
      eapply Permutation_Forall.
      * symmetry. apply sortInsert_perm.
      * constructor; [unfold rankGe; lia | assumption].
Qed.

Lemma Array_sort_sorted (l : list A) :
  StronglySorted (rankGe rank) (Array_sort (descendingBy rank) l).
Proof.
  induction l as [|x l IH]; cbn.
  - constructor.
  - now apply sortInsert_sorted.
Qed.

(** Stability: the markers of one rank keep their relative order. *)
Lemma sortInsert_filter (p : Z) (x : A) (l : list A) :
  filter (fun a => rank a =? p) (sortInsert (descendingBy rank) x l) =
  filter (fun a => rank a =? p) (x :: l).
Proof.
  induction l as [|y l IH]; cbn [sortInsert]; [reflexivity|].
  destruct ((descendingBy rank) x y <=? 0) eqn:E; [reflexivity|].
  unfold descendingBy in E. apply Z.leb_gt in E.
  cbn [filter] in *. rewrite IH.
  destruct (rank x =? p) eqn:Ex, (rank y =? p) eqn:Ey; try reflexivity.
  apply Z.eqb_eq in Ex, Ey. lia.
Qed.

Lemma Array_sort_stable (p : Z) (l : list A) :
  filter (fun a => rank a =? p) (Array_sort (descendingBy rank) l) =
  filter (fun a => rank a =? p) l.
Proof.
  induction l as [|x l IH]; cbn [Array_sort fold_right]; [reflexivity|].
  fold (Array_sort (descendingBy rank) l). rewrite sortInsert_filter. cbn [filter].
  now rewrite IH.
Qed.

(** A list whose ranks are all equal is left as it is. *)
Lemma Array_sort_constant (p : Z) (l : list A) :
  Forall (fun a => rank a = p) l -> Array_sort (descendingBy rank) l = l.
Proof.
  induction 1 as [|x l Hx Hl IH]; cbn [Array_sort fold_right]; [reflexivity|].
  fold (Array_sort (descendingBy rank) l). rewrite IH.
  destruct Hl as [|y l Hy Hl]; cbn [sortInsert]; [reflexivity|].
  unfold descendingBy. replace (rank y - rank x <=? 0) with true; [reflexivity|].
  symmetry. apply Z.leb_le. lia.
Qed.
End SortFacts.

(** *** Coordinates that pass validation *)

Lemma invalidCoordinates_false (lat lon : float) :
  invalidCoordinates lat lon = false ->
  numberFalsy lat = false /\ numberFalsy lon = false.
Proof.
  unfold invalidCoordinates. intro H.
  do 7 (apply orb_false_iff in H as [H ?]). auto.
Qed.

Lemma parseFloat_number (x : float) :
  numberFalsy x = false -> parseFloat (JSNumber x) = x.
Proof.
  unfold numberFalsy. intro H. apply orb_false_iff in H as [H _].
  cbn [parseFloat]. now rewrite H.
Qed.


(** *** Where the markers of the map come from *)

Lemma GroupsOk_hazardStep hs rs g e :
  In e hs -> GroupsOk hs rs g -> GroupsOk hs rs (hazardStep g e).
Proof.
  intros He [Hnd Hall]. rewrite hazardStep_eq.
  destruct (eventValid e) eqn:Ev; [|now split].
  destruct (Map_has g (eventKey e)) eqn:Eh; [now split|].
  split; [now apply NoDup_keys_set|].
  apply Forall_Map_set; [assumption|].
  now apply PlacedEvent with e.
Qed.

Lemma GroupsOk_reportStep hs rs g r i :
  nth_error rs i = Some r -> GroupsOk hs rs g ->
  GroupsOk hs rs (reportStep i g r).
Proof.
  intros Hr [Hnd Hall]. rewrite reportStep_eq.
  destruct (reportValid r) eqn:Ev; [|now split].
  destruct (Map_has g (reportKey r)) eqn:Eh.
  - destruct (ToBoolean _ && recentAt _ _) eqn:Eo; [|now split].
    apply andb_true_iff in Eo as [Eown Erec].
    split; [now apply NoDup_keys_set|].
    apply Forall_Map_set; [assumption|].
    now apply PlacedOverride with r i.
  - split; [now apply NoDup_keys_set|].
    apply Forall_Map_set; [assumption|].
    apply PlacedReport with r; auto. eapply nth_error_In; eassumption.
Qed.

Lemma GroupsOk_events hs rs l g :
  incl l hs -> GroupsOk hs rs g -> GroupsOk hs rs (fold_left hazardStep l g).
Proof.
  revert g; induction l as [|e l IH]; intros g Hl Hg; cbn [fold_left].
  - assumption.
  - apply IH.
    + intros x Hx. apply Hl. now right.
    + apply GroupsOk_hazardStep; [apply Hl; now left | assumption].
Qed.

Lemma GroupsOk_reports hs rs pre todo g :
  rs = pre ++ todo -> GroupsOk hs rs g ->
  GroupsOk hs rs (reportsFrom (List.length pre) todo g).
Proof.
  revert pre g; induction todo as [|r todo IH]; intros pre g Hrs Hg;
    cbn [reportsFrom].
  - assumption.
  - specialize (IH (pre ++ [r]) (reportStep (List.length pre) g r)).
    rewrite length_app, Nat.add_1_r in IH. apply IH.
    + now rewrite <- app_assoc.
    + apply GroupsOk_reportStep; [|assumption].
      subst rs. rewrite nth_error_app2, Nat.sub_diag by lia. reflexivity.
Qed.

Lemma GroupsOk_final hs rs : GroupsOk hs rs (finalGroups hs rs).
Proof.
  unfold finalGroups. apply (GroupsOk_reports hs rs [] rs); [reflexivity|].
  apply GroupsOk_events; [apply incl_refl|].
  split; constructor.
Qed.

(** *** What every placed marker satisfies *)

Lemma Placed_key hs rs k m : Placed hs rs k m -> markerKey m = Normal k.
Proof.
  unfold markerKey.
  intros [e _ Hv <- ->|r _ Hv <- ->|r i _ Hv <- _ _ ->];
    cbn [eventMarker reportMarker overrideMarker Marker.lat Marker.lon];
    unfold eventValid, reportValid in Hv; apply negb_true_iff in Hv;
    pose proof (invalidCoordinates_false _ _ Hv) as [Hlat Hlon];
    rewrite ?parseFloat_number by assumption;
    apply getCoordinateKey_grid.
Qed.


(** The output is drawn from the values of the final map. *)
Lemma In_slice0 {A : Type} (n : nat) (l : list A) (x : A) :
  In x (slice0 n l) -> In x l.
Proof.
  unfold slice0. intro H. rewrite <- (firstn_skipn n l).
  apply in_or_app. now left.
Qed.

Lemma In_output hs rs m :
  In m (slice0 50 (Array_sort byPriorityDesc
                     (Map_values (finalGroups hs rs)))) ->
  exists k, In (k, m) (finalGroups hs rs).
Proof.
  intro H. apply In_slice0 in H.
  apply (Permutation_in _ (Array_sort_perm Marker.priority _)) in H.
  unfold Map_values in H. apply in_map_iff in H as [[k m'] [E H]].
  cbn in E. subst m'. now exists k.
Qed.

Lemma output_Placed hs rs m :
  In m (slice0 50 (Array_sort byPriorityDesc
                     (Map_values (finalGroups hs rs)))) ->
  exists k, Placed hs rs k m.
Proof.
  intro H. apply In_output in H as [k H]. exists k.
  destruct (GroupsOk_final hs rs) as [_ Hall].
  apply (proj1 (Forall_forall _ _) Hall (k, m) H).
Qed.

(** *** The sorted, truncated output *)

Lemma StronglySorted_slice0 {A : Type} (R : A -> A -> Prop) (n : nat)
  (l : list A) :
  StronglySorted R l -> StronglySorted R (slice0 n l).
Proof.
  unfold slice0. intro Hs; revert n.
  induction Hs as [|x l Hs IH Hx]; intro n.
  - rewrite firstn_nil. constructor.
  - destruct n as [|n]; cbn [firstn]; constructor; [apply IH|].
    apply Forall_forall. intros y Hy.
    apply (proj1 (Forall_forall _ _) Hx).
    rewrite <- (firstn_skipn n l). apply in_or_app. now left.
Qed.

Lemma output_sorted (l : list Marker.t) :
  StronglySorted (rankGe Marker.priority)
    (slice0 50 (Array_sort byPriorityDesc l)).
Proof.
  apply StronglySorted_slice0.
  apply (Array_sort_sorted Marker.priority).
Qed.

Lemma filter_firstn {A : Type} (f : A -> bool) (n : nat) (l : list A) :
  exists n', filter f (firstn n l) = firstn n' (filter f l).
Proof.
  revert n; induction l as [|x l IH]; intro n.
  - exists 0%nat. now rewrite firstn_nil.
  - destruct n as [|n]; cbn [firstn filter].
    + now exists 0%nat.
    + destruct (IH n) as [n' Hn']. destruct (f x).
      * exists (S n'). cbn [firstn]. now rewrite Hn'.
      * now exists n'.
Qed.

(** Ties keep the iteration order of the map. *)
Lemma output_stable (p : Z) (l : list Marker.t) :
  exists n,
    filter (fun m => Marker.priority m =? p)
      (slice0 50 (Array_sort byPriorityDesc l)) =
    firstn n (filter (fun m => Marker.priority m =? p) l).
Proof.
  unfold slice0.
  destruct (filter_firstn (fun m => Marker.priority m =? p) 50
              (Array_sort byPriorityDesc l)) as [n Hn].
  exists n. rewrite Hn. f_equal.
  apply (Array_sort_stable Marker.priority).
Qed.

(** *** The order of the cells *)

Lemma Map_has_existsb (g : Groups) (k : string) :
  Map_has g k = existsb (String.eqb k) (Map_keys g).
Proof.
  unfold Map_has, Map_keys. induction g as [|[k' m] g IH]; cbn; [reflexivity|].
  now rewrite IH, String.eqb_sym.
Qed.

Lemma Map_keys_set_addKey (g : Groups) (k : string) (m : Marker.t) :
  Map_keys (Map_set g k m) = addKey (Map_keys g) k.
Proof.
  rewrite Map_keys_set. unfold addKey. now rewrite Map_has_existsb.
Qed.

Lemma addKey_present (acc : list string) (k : string) :
  existsb (String.eqb k) acc = true -> addKey acc k = acc.
Proof. unfold addKey. now intros ->. Qed.

Lemma keys_hazardStep (g : Groups) (e : HazardEvent.t) :
  Map_keys (hazardStep g e) =
  fold_left addKey (if eventValid e then [eventKey e] else []) (Map_keys g).
Proof.
  rewrite hazardStep_eq. destruct (eventValid e); [|reflexivity].
  cbn [fold_left]. destruct (Map_has g (eventKey e)) eqn:E.
  - rewrite Map_has_existsb in E. now rewrite addKey_present.
  - apply Map_keys_set_addKey.
Qed.

Lemma keys_reportStep (i : nat) (g : Groups) (r : UserReport.t) :
  Map_keys (reportStep i g r) =
  fold_left addKey (if reportValid r then [reportKey r] else []) (Map_keys g).
Proof.
  rewrite reportStep_eq. destruct (reportValid r); [|reflexivity].
  cbn [fold_left]. destruct (Map_has g (reportKey r)) eqn:E.
  - (* an occupied cell keeps its place, replaced or not *)
    pose proof E as E'. rewrite Map_has_existsb in E'.
    rewrite (addKey_present _ _ E').
    destruct (_ && _); [now rewrite Map_keys_set_present | reflexivity].
  - apply Map_keys_set_addKey.
Qed.

Lemma keys_events (hs : list HazardEvent.t) (g : Groups) :
  Map_keys (fold_left hazardStep hs g) =
  fold_left addKey (cellsOfEvents hs) (Map_keys g).
Proof.
  revert g; induction hs as [|e hs IH]; intro g; cbn [fold_left]; [reflexivity|].
  unfold cellsOfEvents in *. cbn [flat_map].
  now rewrite fold_left_app, IH, keys_hazardStep.
Qed.

Lemma keys_reports (rs : list UserReport.t) (i : nat) (g : Groups) :
  Map_keys (reportsFrom i rs g) =
  fold_left addKey (cellsOfReports rs) (Map_keys g).
Proof.
  revert i g; induction rs as [|r rs IH]; intros i g; cbn [reportsFrom];
    [reflexivity|].
  unfold cellsOfReports in *. cbn [flat_map].
  now rewrite fold_left_app, IH, keys_reportStep.
Qed.

Lemma keys_final (hs : list HazardEvent.t) (rs : list UserReport.t) :
  Map_keys (finalGroups hs rs) =
  firstOccurrences (cellsOfEvents hs ++ cellsOfReports rs).
Proof.
  unfold finalGroups, firstOccurrences.
  now rewrite keys_reports, keys_events, fold_left_app.
Qed.

(** *** Events in free, distinct cells *)

Lemma events_in_free_cells (hs : list HazardEvent.t) (g : Groups) :
  Forall (fun e => eventValid e = true) hs ->
  NoDup (map eventKey hs) ->
  (forall e, In e hs -> Map_has g (eventKey e) = false) ->
  fold_left hazardStep hs g =
  g ++ map (fun e => (eventKey e, eventMarker e)) hs.
Proof.
  revert g; induction hs as [|e hs IH]; intros g Hv Hnd Hfree;
    cbn [fold_left map].
  - now rewrite app_nil_r.
  - inversion Hv as [|? ? He Hv']; subst.
    inversion Hnd as [|? ? Hnotin Hnd']; subst.
    rewrite hazardStep_eq, He, (Hfree e (or_introl eq_refl)).
    rewrite Map_set_fresh by (apply Hfree; now left).
    rewrite IH; [now rewrite <- app_assoc | assumption | assumption |].
    intros e' He'. unfold Map_has. rewrite existsb_app. cbn [existsb fst].
    apply orb_false_iff. split; [apply Hfree; now right|].
    rewrite orb_false_r. apply String.eqb_neq. intro E.
    apply Hnotin. rewrite E. now apply in_map.
Qed.

(* ================================================================== *)
(** ** The unified list                                                 *)
(* ================================================================== *)

Lemma NoDup_slice0 {A : Type} (n : nat) (l : list A) :
  NoDup l -> NoDup (slice0 n l).
Proof.
  unfold slice0. intro H. rewrite <- (firstn_skipn n l) in H.
  now apply NoDup_app_remove_r in H.
Qed.

Lemma NoDup_map_Normal {A : Type} (l : list A) :
  NoDup l -> NoDup (map (@Normal A) l).
Proof.
  induction 1 as [|x l Hx Hl IH]; cbn [map]; constructor; [|assumption].
  intros [y [[= ->] Hy]]%in_map_iff. contradiction.
Qed.

Lemma groups_keys (hs : list HazardEvent.t) (rs : list UserReport.t)
  (g : Groups) :
  GroupsOk hs rs g ->
  map markerKey (Map_values g) = map Normal (Map_keys g).
Proof.
  intros [_ Hall]. unfold Map_values, Map_keys. rewrite !map_map.
  apply map_ext_in. intros [k m] Hin. cbn [fst snd].
  apply Placed_key with hs rs.
  apply (proj1 (Forall_forall _ _) Hall (k, m) Hin).
Qed.

(** C1. Whatever the two input lists, the list [createUnifiedMarkerData]
    returns holds at most one marker per grid cell: the grid keys of its
    markers, taken at the three decimals of [GRID_PRECISION], are all
    produced and pairwise distinct. *)
Theorem unified_one_marker_per_cell (hs : list HazardEvent.t)
  (rs : list UserReport.t) :
  exists out keys,
    createUnifiedMarkerData hs rs = Normal out /\
    map markerKey out = map Normal keys /\
    NoDup keys.
Proof.
  rewrite createUnifiedMarkerData_eq.
  pose proof (GroupsOk_final hs rs) as Hok.
  pose proof (groups_keys _ _ _ Hok) as Hkeys.
  destruct Hok as [Hnd _].
  set (g := finalGroups hs rs) in *.
  set (sorted := Array_sort byPriorityDesc (Map_values g)).
  assert (Hperm : Permutation sorted (Map_values g))
    by apply (Array_sort_perm Marker.priority).
  assert (Hall : NoDup (map markerKey sorted)).
  { eapply Permutation_NoDup.
    - symmetry. apply Permutation_map. exact Hperm.
    - rewrite Hkeys. now apply NoDup_map_Normal. }
  assert (Hnorm : forall l : list Marker.t,
             incl l (Map_values g) ->
             exists ks, map markerKey l = map Normal ks).
  { induction l as [|m l IH]; intro Hin.
    - now exists [].
    - destruct IH as [ks Hks]; [intros x Hx; apply Hin; now right|].
      assert (Hm : In (markerKey m) (map Normal (Map_keys g))).
      { rewrite <- Hkeys. apply in_map, Hin. now left. }
      apply in_map_iff in Hm as [k [Hk _]].
      exists (k :: ks). cbn [map]. now rewrite Hks, Hk. }
  destruct (Hnorm (slice0 50 sorted)) as [ks Hks].
  { intros x Hx. apply In_slice0 in Hx.
    now apply (Permutation_in _ Hperm). }
  exists (slice0 50 sorted), ks. repeat split; [assumption|].
  apply (NoDup_map_inv Normal). rewrite <- Hks.
  unfold slice0. rewrite <- firstn_map. now apply (NoDup_slice0 50).
Qed.

(* ================================================================== *)
(** ** Validation                                                       *)
(* ================================================================== *)

Lemma zero_invalid (lat lon : float) :
  is_zero lat || is_zero lon = true -> invalidCoordinates lat lon = true.
Proof.
  unfold invalidCoordinates, numberFalsy.
  intros [H|H]%orb_true_iff; rewrite H; cbn [orb];
    rewrite ?orb_true_r; reflexivity.
Qed.

Lemma Placed_nonzero hs rs k m :
  Placed hs rs k m -> zeroCoordinate (Marker.data m) = false.
Proof.
  intros [e _ Hv _ ->|r _ Hv _ ->|r i _ Hv _ _ _ ->];
    cbn [eventMarker reportMarker overrideMarker Marker.data zeroCoordinate];
    unfold eventValid, reportValid in Hv; apply negb_true_iff in Hv;
    (destruct (_ || _) eqn:E; [|reflexivity]);
    apply zero_invalid in E; congruence.
Qed.

(** C5. A record whose latitude or longitude is exactly zero fails the
    coordinate validation: the callback of either loop leaves the map as
    it was, and no marker of the unified list refers to such a record. *)
Theorem zero_coordinate_is_skipped :
  (forall (g : Groups) (e : HazardEvent.t),
      zeroCoordinate (EventData e) = true ->
      hazardCallback g e = Normal g) /\
  (forall (i : nat) (g : Groups) (r : UserReport.t),
      zeroCoordinate (ReportData r) = true ->
      reportCallback i g r = Normal g) /\
  (forall (hs : list HazardEvent.t) (rs : list UserReport.t),
      exists out,
        createUnifiedMarkerData hs rs = Normal out /\
        Forall (fun m => zeroCoordinate (Marker.data m) = false) out).
Proof.
  split; [|split].
  - intros g e H. unfold hazardCallback.
    now rewrite (zero_invalid _ _ H).
  - intros i g r H. unfold reportCallback.
    now rewrite (zero_invalid _ _ H).
  - intros hs rs. rewrite createUnifiedMarkerData_eq.
    eexists; split; [reflexivity|].
    apply Forall_forall. intros m Hm.
    apply output_Placed in Hm as [k Hk].
    now apply Placed_nonzero with hs rs k.
Qed.

(* ================================================================== *)
(** ** Confidence                                                       *)
(* ================================================================== *)

Lemma Placed_confidence hs rs k m :
  Placed hs rs k m ->
  Marker.confidence m =
  js_or (sourceConfidence (Marker.data m)) (defaultConfidence (Marker.data m)).
Proof.
  intros [e _ _ _ ->|r _ _ _ ->|r i _ _ _ _ _ ->]; reflexivity.
Qed.

(** C4, as the code has it. The confidence of a unified marker is its
    record's confidence whenever that field is truthy; when the field
    is falsy (absent, null, zero, NaN, the empty string or false) it is
    the default, 0.5 for a hazard event and 0.3 for a user report. *)
Theorem confidence_or_default (hs : list HazardEvent.t)
  (rs : list UserReport.t) :
  exists out,
    createUnifiedMarkerData hs rs = Normal out /\
    Forall (fun m =>
              let c := sourceConfidence (Marker.data m) in
              Marker.confidence m =
              if ToBoolean c then c else defaultConfidence (Marker.data m))
      out.
Proof.
  rewrite createUnifiedMarkerData_eq. eexists; split; [reflexivity|].
  apply Forall_forall. intros m Hm.
  apply output_Placed in Hm as [k Hk].
  apply (Placed_confidence _ _ _ _ Hk).
Qed.

(* ================================================================== *)
(** ** The override of a hazard marker                                  *)
(* ================================================================== *)

Lemma recentAt_spec (now : Z) (r : UserReport.t) :
  0 <= now <= 8640000000000000 ->
  recentAt now r = true <-> afterThirtyMinutesAgo now r.
Proof.
  intro Hnow. unfold recentAt, afterThirtyMinutesAgo, TimeClip.
  replace (Z.abs (now - 30 * 60 * 1000) <=? 8640000000000000) with true
    by (symmetry; apply Z.leb_le; lia).
  destruct (Date_new _) as [[t|]|ex]; cbn [Date_gt].
  - rewrite Z.ltb_lt. split.
    + intro H. now exists t.
    + intros [t' [[= <-] H]]. assumption.
  - split; [discriminate | intros [t [[=] _]]].
  - split; [discriminate | intros [t [[=] _]]].
Qed.

(** The window of the specification lies inside what the code tests;
    what the code admits beyond it are the timestamps ahead of the
    clock. *)
Lemma afterThirtyMinutesAgo_cases (now : Z) (r : UserReport.t) :
  afterThirtyMinutesAgo now r <->
  withinLast30Minutes now r \/
  exists t, Date_new (UserReport.timestamp r) = Normal (Some t) /\ now < t.
Proof.
  unfold afterThirtyMinutesAgo, withinLast30Minutes. split.
  - intros [t [Ht Hlt]]. destruct (Z_le_gt_dec t now).
    + left. exists t. split; [assumption | lia].
    + right. exists t. split; [assumption | lia].
  - intros [[t [Ht Hlt]]|[t [Ht Hlt]]]; exists t; split; try assumption; lia.
Qed.

(** C2, as the code has it.  A valid report falls in a cell that a
    hazard-event marker occupies, and the clock reads a time value at
    or after the epoch.  The callback replaces the marker, with one of
    priority 9 that refers to the report, exactly when the report is
    the user's own submission and its timestamp is later than thirty
    minutes before the clock reading; otherwise the map is left as it
    was.  So an own report within the last 30 minutes replaces the
    marker, and an own report that replaces it is either within the
    last 30 minutes or dated ahead of the clock, which the test lets
    through as well.  In particular an own report timestamped at the
    clock reading replaces the hazard marker, a report timestamped 31
    minutes earlier does not, and a report that is not the user's own
    does not. *)
Theorem override_iff_own_and_recent (i : nat) (g : Groups)
  (r : UserReport.t) (h : Marker.t) :
  reportValid r = true ->
  Map_get g (reportKey r) = Some h ->
  Marker.type h = hazard_event ->
  0 <= Date_now i <= 8640000000000000 ->
  exists g',
    reportCallback i g r = Normal g' /\
    (Map_get g' (reportKey r) <> Some h <->
     ToBoolean (UserReport.isUserSubmission r) = true /\
     afterThirtyMinutesAgo (Date_now i) r) /\
    (Map_get g' (reportKey r) <> Some h <->
     ToBoolean (UserReport.isUserSubmission r) = true /\
     (withinLast30Minutes (Date_now i) r \/
      exists t, Date_new (UserReport.timestamp r) = Normal (Some t) /\
                Date_now i < t)) /\
    (Map_get g' (reportKey r) <> Some h ->
     exists m,
       g' = Map_set g (reportKey r) m /\
       Map_get g' (reportKey r) = Some m /\
       Marker.type m = user_report /\
       Marker.data m = ReportData r /\
       Marker.priority m = 9) /\
    (Map_get g' (reportKey r) = Some h -> g' = g) /\
    (ToBoolean (UserReport.isUserSubmission r) = true ->
     Date_new (UserReport.timestamp r) = Normal (Some (Date_now i)) ->
     Map_get g' (reportKey r) <> Some h) /\
    (Date_new (UserReport.timestamp r) =
       Normal (Some (Date_now i - 31 * 60 * 1000)) ->
     Map_get g' (reportKey r) = Some h) /\
    (ToBoolean (UserReport.isUserSubmission r) = false ->
     Map_get g' (reportKey r) = Some h).
Proof.
  intros Hv Hget Hty Hnow.
  exists (reportStep i g r). split; [apply reportCallback_step|].
  rewrite reportStep_eq, Hv, (Map_get_has _ _ _ Hget).
  pose proof (recentAt_spec (Date_now i) r Hnow) as Hrec.
  pose proof (afterThirtyMinutesAgo_cases (Date_now i) r) as Hcases.
  assert (Hne : Some (overrideMarker r) <> Some h).
  { intros [= <-]. discriminate Hty. }
  destruct (ToBoolean (UserReport.isUserSubmission r)) eqn:Eown;
    cbn [andb];
    [destruct (recentAt (Date_now i) r) eqn:Erec|].
  - (* own and recent: the marker is replaced *)
    rewrite Map_get_set_same.
    assert (Hw : afterThirtyMinutesAgo (Date_now i) r) by now apply Hrec.
    repeat split; try congruence; try tauto.
    + intros _. exists (overrideMarker r). repeat split.
    + intro E. destruct Hw as [t [Ht Hlt]]. rewrite E in Ht.
      injection Ht as <-. lia.
  - (* own, not recent *)
    assert (Hw : ~ afterThirtyMinutesAgo (Date_now i) r).
    { intro H. apply Hrec in H. discriminate. }
    repeat split; try congruence; try tauto.
    intros _ E. exfalso. apply Hw. exists (Date_now i). split; [assumption|lia].
  - (* not the user's own *)
    repeat split; try congruence; try tauto.
    + intros [H _]. discriminate.
    + intros [H _]. discriminate.
Qed.

(** C10. When a recent own submission replaces the occupant of its
    cell, the new marker's [lat] and [lon] are the report's raw [lat]
    and [lon] fields, not the parsed numbers the validation and the key
    were computed from; so coordinates that arrive as strings are stored
    as those strings.  The two insertion paths store the parsed
    numbers. *)
Theorem override_stores_raw_coordinates :
  (forall (i : nat) (g : Groups) (r : UserReport.t),
      reportValid r = true ->
      Map_has g (reportKey r) = true ->
      ToBoolean (UserReport.isUserSubmission r) = true ->
      recentAt (Date_now i) r = true ->
      exists m,
        reportCallback i g r = Normal (Map_set g (reportKey r) m) /\
        Marker.priority m = 9 /\
        Marker.lat m = UserReport.lat r /\
        Marker.lon m = UserReport.lon r /\
        (forall s, UserReport.lat r = JSString s -> Marker.lat m = JSString s) /\
        (forall s, UserReport.lon r = JSString s -> Marker.lon m = JSString s)) /\
  (forall (i : nat) (g : Groups) (r : UserReport.t),
      reportValid r = true ->
      Map_has g (reportKey r) = false ->
      exists m,
        reportCallback i g r = Normal (Map_set g (reportKey r) m) /\
        Marker.lat m = JSNumber (parseFloat (UserReport.lat r)) /\
        Marker.lon m = JSNumber (parseFloat (UserReport.lon r))) /\
  (forall (g : Groups) (e : HazardEvent.t),
      eventValid e = true ->
      Map_has g (eventKey e) = false ->
      exists m,
        hazardCallback g e = Normal (Map_set g (eventKey e) m) /\
        Marker.lat m = JSNumber (parseFloat (HazardEvent.centroid_lat e)) /\
        Marker.lon m = JSNumber (parseFloat (HazardEvent.centroid_lon e))).
Proof.
  split; [|split].
  - intros i g r Hv Hhas Hown Hrec. exists (overrideMarker r).
    rewrite reportCallback_step, reportStep_eq, Hv, Hhas, Hown, Hrec.
    cbn [andb overrideMarker Marker.lat Marker.lon Marker.priority].
    repeat split; auto.
  - intros i g r Hv Hhas. exists (reportMarker r).
    rewrite reportCallback_step, reportStep_eq, Hv, Hhas.
    repeat split.
  - intros g e Hv Hhas. exists (eventMarker e).
    rewrite hazardCallback_step, hazardStep_eq, Hv, Hhas.
    repeat split.
Qed.

(* ================================================================== *)
(** ** No record makes the unification fail                             *)
(* ================================================================== *)

Lemma hazardStep_invalid (g : Groups) (e : HazardEvent.t) :
  eventValid e = false -> hazardStep g e = g.
Proof. intro H. now rewrite hazardStep_eq, H. Qed.

Lemma reportStep_invalid (i : nat) (g : Groups) (r : UserReport.t) :
  reportValid r = false -> reportStep i g r = g.
Proof. intro H. now rewrite reportStep_eq, H. Qed.

(** C9. [createUnifiedMarkerData] returns a list, sorted by descending
    priority, for every pair of input lists, every behaviour of the
    [Date] constructor (it may throw) and every clock.  A record whose
    coordinates fail the validation is skipped on its own: the callback
    returns the map unchanged and the result is the one obtained without
    the record.  A timestamp that fails to parse, by an exception or as
    an Invalid Date, only keeps the report from replacing the occupant
    of its cell. *)
Theorem unification_never_throws :
  (forall (hs : list HazardEvent.t) (rs : list UserReport.t),
      exists out,
        createUnifiedMarkerData hs rs = Normal out /\
        StronglySorted (rankGe Marker.priority) out) /\
  (forall (g : Groups) (e : HazardEvent.t),
      eventValid e = false -> hazardCallback g e = Normal g) /\
  (forall (i : nat) (g : Groups) (r : UserReport.t),
      reportValid r = false -> reportCallback i g r = Normal g) /\
  (forall (hs1 hs2 : list HazardEvent.t) (e : HazardEvent.t)
          (rs : list UserReport.t),
      eventValid e = false ->
      createUnifiedMarkerData (hs1 ++ e :: hs2) rs =
      createUnifiedMarkerData (hs1 ++ hs2) rs) /\
  (forall (i : nat) (g : Groups) (r : UserReport.t),
      reportValid r = true ->
      Map_has g (reportKey r) = true ->
      (exists ex, Date_new (UserReport.timestamp r) = Throw ex) \/
      Date_new (UserReport.timestamp r) = Normal None ->
      reportCallback i g r = Normal g).
Proof.
  repeat split.
  - intros hs rs. rewrite createUnifiedMarkerData_eq.
    eexists; split; [reflexivity|].
    apply output_sorted.
  - intros g e H. now rewrite hazardCallback_step, hazardStep_invalid.
  - intros i g r H. now rewrite reportCallback_step, reportStep_invalid.
  - intros hs1 hs2 e rs H. rewrite !createUnifiedMarkerData_eq.
    unfold finalGroups. rewrite !fold_left_app. cbn [fold_left].
    now rewrite hazardStep_invalid.
  - intros i g r Hv Hhas Hts.
    rewrite reportCallback_step, reportStep_eq, Hv, Hhas.
    replace (recentAt (Date_now i) r) with false;
      [now rewrite andb_false_r|].
    unfold recentAt. destruct Hts as [[ex ->]| ->]; reflexivity.
Qed.

(* ================================================================== *)
(** ** The cap and the order of ties                                    *)
(* ================================================================== *)

Lemma events_only (hs : list HazardEvent.t) :
  Forall (fun e => eventValid e = true) hs ->
  NoDup (map eventKey hs) ->
  createUnifiedMarkerData hs [] = Normal (map eventMarker (firstn 50 hs)).
Proof.
  intros Hv Hnd. rewrite createUnifiedMarkerData_eq.
  unfold finalGroups. cbn [reportsFrom].
  rewrite events_in_free_cells by (auto; intros; reflexivity).
  cbn [app]. unfold Map_values. rewrite map_map. cbn [snd].
  change (map (fun e => eventMarker e) hs) with (map eventMarker hs).
  unfold byPriorityDesc.
  rewrite (Array_sort_constant Marker.priority 10).
  - unfold slice0. now rewrite firstn_map.
  - apply Forall_forall. intros m [e [<- _]]%in_map_iff. reflexivity.
Qed.

(** C3, as the code has it. Sixty hazard events, all passing the
    validation and in sixty distinct cells, and no report: the unified
    list has exactly fifty markers, and they are the markers of the
    first fifty events in input order, each of priority 10. *)
Theorem sixty_events_keep_the_first_fifty (hs : list HazardEvent.t) :
  List.length hs = 60%nat ->
  Forall (fun e => eventValid e = true) hs ->
  NoDup (map eventKey hs) ->
  exists out,
    createUnifiedMarkerData hs [] = Normal out /\
    List.length out = 50%nat /\
    out = map eventMarker (firstn 50 hs) /\
    map Marker.data out = map EventData (firstn 50 hs) /\
    Forall (fun m => Marker.priority m = 10) out.
Proof.
  intros Hlen Hv Hnd. exists (map eventMarker (firstn 50 hs)).
  split; [now apply events_only|]. repeat split.
  - rewrite length_map, firstn_length_le; [reflexivity | lia].
  - now rewrite map_map.
  - apply Forall_forall. intros m [e [<- _]]%in_map_iff. reflexivity.
Qed.

(** C6, as the code has it. The unified list is sorted by
    non-increasing priority, and the sort is stable with respect to the
    iteration order of the map: the markers of one priority stand in
    the order of their cells, and the cells stand in the order in which
    they were first occupied, by the valid hazard events in input order
    and then by the valid reports in input order.  (A report that
    replaces the occupant of a cell takes that cell's place.) *)
Theorem sorted_with_ties_in_cell_order (hs : list HazardEvent.t)
  (rs : list UserReport.t) :
  exists (groups : Groups) (out : list Marker.t),
    createUnifiedMarkerData hs rs = Normal out /\
    StronglySorted (rankGe Marker.priority) out /\
    Map_keys groups =
      firstOccurrences (cellsOfEvents hs ++ cellsOfReports rs) /\
    map markerKey (Map_values groups) = map Normal (Map_keys groups) /\
    (forall p : Z,
        exists n,
          filter (fun m => Marker.priority m =? p) out =
          firstn n
            (filter (fun m => Marker.priority m =? p) (Map_values groups))).
Proof.
  exists (finalGroups hs rs). eexists.
  split; [apply createUnifiedMarkerData_eq|].
  split; [apply output_sorted|].
  split; [apply keys_final|].
  split; [apply (groups_keys hs rs), GroupsOk_final|].
  intro p. apply output_stable.
Qed.

(* ================================================================== *)
(** ** The radius filter                                                *)
(* ================================================================== *)






(* ================================================================== *)
(** ** The grid key                                                     *)
(* ================================================================== *)

Lemma chars_uint_uint_chars (d : Decimal.uint) :
  chars_uint (uint_chars d) = d.
Proof. induction d; cbn; congruence. Qed.

Lemma uint_chars_digits (d : Decimal.uint) :
  forallb isDigit (uint_chars d) = true.
Proof. induction d; cbn; auto. Qed.

Lemma valueOfDigits_digitsOf (n : N) : valueOfDigits (digitsOf n) = n.
Proof.
  unfold valueOfDigits, digitsOf. rewrite chars_uint_uint_chars.
  apply DecimalN.Unsigned.of_to.
Qed.

Lemma valueOfDigits_zeros (z : nat) (l : list ascii) :
  valueOfDigits (repeat "0"%char z ++ l) = valueOfDigits l.
Proof. induction z as [|z IH]; [reflexivity | exact IH]. Qed.

Lemma filter_all {A : Type} (f : A -> bool) (l : list A) :
  forallb f l = true -> filter f l = l.
Proof.
  induction l as [|x l IH]; cbn; [reflexivity|].
  intros [-> H]%andb_true_iff. now rewrite IH.
Qed.

Lemma filter_none {A : Type} (f : A -> bool) (l : list A) :
  forallb (fun x => negb (f x)) l = true -> filter f l = [].
Proof.
  induction l as [|x l IH]; cbn; [reflexivity|].
  intros [Hx H]%andb_true_iff. apply negb_true_iff in Hx.
  now rewrite Hx, IH.
Qed.

Lemma forallb_weaken {A : Type} (f g : A -> bool) (l : list A) :
  (forall x, f x = true -> g x = true) ->
  forallb f l = true -> forallb g l = true.
Proof.
  intros Hfg. rewrite !forallb_forall. auto.
Qed.

Lemma paddedDigits_digits (n : N) (f : nat) :
  forallb isDigit (paddedDigits n f) = true.
Proof.
  unfold paddedDigits, digitsOf.
  destruct (_ <=? f)%nat; [|apply uint_chars_digits].
  rewrite forallb_app, uint_chars_digits, andb_true_r.
  induction (f + 1 - _)%nat; cbn; auto.
Qed.

Lemma valueOfDigits_padded (n : N) (f : nat) :
  valueOfDigits (paddedDigits n f) = n.
Proof.
  unfold paddedDigits. destruct (_ <=? f)%nat.
  - rewrite valueOfDigits_zeros. apply valueOfDigits_digitsOf.
  - apply valueOfDigits_digitsOf.
Qed.

(** With fraction digits, a fixed notation is the padded digits with a
    point among them. *)
Lemma fixedNotation_split (n : N) (f : nat) :
  exists j,
    fixedNotation n (S f) =
    firstn j (paddedDigits n (S f)) ++
    "."%char :: skipn j (paddedDigits n (S f)).
Proof. eexists. reflexivity. Qed.

Lemma fixedNotation_value (n : N) (f : nat) :
  valueOfDigits (filter isDigit (fixedNotation n f)) = n.
Proof.
  destruct f as [|f].
  - cbn [fixedNotation]. unfold digitsOf at 1.
    rewrite filter_all by apply uint_chars_digits.
    apply valueOfDigits_digitsOf.
  - destruct (fixedNotation_split n f) as [j ->].
    pose proof (paddedDigits_digits n (S f)) as Hd.
    rewrite filter_app. cbn [filter].
    replace (isDigit ".") with false by reflexivity.
    rewrite <- filter_app, firstn_skipn, filter_all by assumption.
    apply valueOfDigits_padded.
Qed.

Lemma digits_fixedChars (l : list ascii) :
  forallb isDigit l = true -> forallb isFixedChar l = true.
Proof.
  apply forallb_weaken. unfold isFixedChar. now intros x ->.
Qed.

Lemma fixedNotation_chars (n : N) (f : nat) :
  forallb isFixedChar (fixedNotation n f) = true.
Proof.
  destruct f as [|f].
  - apply digits_fixedChars, uint_chars_digits.
  - destruct (fixedNotation_split n f) as [j ->].
    pose proof (digits_fixedChars _ (paddedDigits_digits n (S f))) as Hd.
    rewrite forallb_app. cbn [forallb].
    rewrite <- (firstn_skipn j (paddedDigits n (S f))), forallb_app in Hd.
    apply andb_true_iff in Hd as [-> ->]. reflexivity.
Qed.

Lemma isFixedChar_not (d : ascii) :
  isFixedChar d = false ->
  forall l, forallb isFixedChar l = true ->
  forallb (fun x => negb (Ascii.eqb d x)) l = true.
Proof.
  intros Hd l. apply forallb_weaken. intros x Hx.
  apply negb_true_iff. destruct (Ascii.eqb d x) eqn:E; [|reflexivity].
  apply Ascii.eqb_eq in E. congruence.
Qed.

Lemma fixedChars_inj (p1 p2 : bool * N) (f : nat) :
  fixedChars p1 f = fixedChars p2 f -> p1 = p2.
Proof.
  destruct p1 as [s1 n1], p2 as [s2 n2]. unfold fixedChars. cbn [fst snd].
  intro H.
  assert (Hs : forall s n,
             filter (Ascii.eqb "-") (signChars s ++ fixedNotation n f) =
             signChars s).
  { intros s n. rewrite filter_app, (filter_none _ (fixedNotation n f)).
    - destruct s; reflexivity.
    - apply (isFixedChar_not "-"); [reflexivity | apply fixedNotation_chars]. }
  assert (Es : s1 = s2).
  { pose proof (Hs s1 n1) as H1. rewrite H, Hs in H1.
    destruct s1, s2; cbn in H1; congruence. }
  subst s2. apply app_inv_head in H.
  apply (f_equal (fun l => valueOfDigits (filter isDigit l))) in H.
  rewrite !fixedNotation_value in H. now subst.
Qed.

Lemma fixedChars_no_underscore (p : bool * N) (f : nat) :
  ~ In "_"%char (fixedChars p f).
Proof.
  unfold fixedChars. intros [H|H]%in_app_or.
  - destruct (fst p); cbn in H; [destruct H as [H|[]]; discriminate H | exact H].
  - pose proof (fixedNotation_chars (snd p) f) as Hc.
    rewrite forallb_forall in Hc. apply Hc in H. discriminate H.
Qed.

Lemma join_inj {A : Type} (c : A) (a a' b b' : list A) :
  ~ In c a -> ~ In c a' ->
  a ++ c :: b = a' ++ c :: b' -> a = a' /\ b = b'.
Proof.
  revert a'; induction a as [|x a IH]; intros [|x' a'] Ha Ha' H;
    cbn [app] in H.
  - injection H as ->. auto.
  - injection H as -> _. exfalso. apply Ha'. now left.
  - injection H as -> _. exfalso. apply Ha. now left.
  - injection H as -> H. destruct (IH a') as [-> ->]; auto.
    + intro; apply Ha; now right.
    + intro; apply Ha'; now right.
Qed.

Lemma string_of_list_ascii_join (a b : list ascii) :
  (string_of_list_ascii a ++ "_" ++ string_of_list_ascii b)%string =
  string_of_list_ascii (a ++ "_"%char :: b).
Proof. induction a as [|x a IH]; cbn; [reflexivity | now rewrite <- IH]. Qed.

Lemma string_of_list_ascii_inj (a b : list ascii) :
  string_of_list_ascii a = string_of_list_ascii b -> a = b.
Proof.
  intro H. apply (f_equal list_ascii_of_string) in H.
  now rewrite !list_ascii_of_string_of_list_ascii in H.
Qed.

Lemma toFixed_fixedParts (x : float) (precision : Z) (parts : bool * N) :
  0 <= precision <= 100 ->
  fixedParts x precision = Some parts ->
  toFixed x precision =
  Normal (string_of_list_ascii (fixedChars parts (Z.to_nat precision))).
Proof.
  intros Hp. unfold toFixed, fixedParts, fixedChars.
  replace ((precision <? 0) || (100 <? precision)) with false
    by (symmetry; apply orb_false_iff; split;
        [apply Z.ltb_ge | apply Z.ltb_ge]; lia).
  destruct (Prim2SF x) as [sg|sg| |sg m e]; try discriminate.
  - intros [= <-]. reflexivity.
  - destruct (atLeast1e21 m e); [discriminate|].
    intros [= <-]. reflexivity.
Qed.

(** C7, as the code has it. For two coordinate pairs of finite numbers
    of magnitude below [10^21] and a precision from 0 to 100,
    [getCoordinateKey] gives the same key exactly when the two
    latitudes, and the two longitudes, print the same sign and round to
    the same magnitude at that number of decimals (a negative number
    keeps its sign when it rounds to zero).  The keys decide the cells:
    a valid record adds a cell to the map exactly when no cell has its
    key. *)
Theorem same_key_iff_same_sign_and_rounding :
  (forall (lat1 lon1 lat2 lon2 : float) (precision : Z),
      0 <= precision <= 100 ->
      fixedParts lat1 precision <> None ->
      fixedParts lon1 precision <> None ->
      fixedParts lat2 precision <> None ->
      fixedParts lon2 precision <> None ->
      (getCoordinateKey lat1 lon1 precision =
       getCoordinateKey lat2 lon2 precision
       <->
       fixedParts lat1 precision = fixedParts lat2 precision /\
       fixedParts lon1 precision = fixedParts lon2 precision)) /\
  (forall (g : Groups) (e : HazardEvent.t),
      eventValid e = true ->
      getCoordinateKey (parseFloat (HazardEvent.centroid_lat e))
        (parseFloat (HazardEvent.centroid_lon e)) GRID_PRECISION
        = Normal (eventKey e) /\
      exists g',
        hazardCallback g e = Normal g' /\
        Map_keys g' = addKey (Map_keys g) (eventKey e)) /\
  (forall (i : nat) (g : Groups) (r : UserReport.t),
      reportValid r = true ->
      getCoordinateKey (parseFloat (UserReport.lat r))
        (parseFloat (UserReport.lon r)) GRID_PRECISION
        = Normal (reportKey r) /\
      exists g',
        reportCallback i g r = Normal g' /\
        Map_keys g' = addKey (Map_keys g) (reportKey r)).
Proof.
  split; [|split].
  - intros lat1 lon1 lat2 lon2 precision Hp H1 H2 H3 H4.
    destruct (fixedParts lat1 precision) as [a1|] eqn:E1; [|congruence].
    destruct (fixedParts lon1 precision) as [b1|] eqn:E2; [|congruence].
    destruct (fixedParts lat2 precision) as [a2|] eqn:E3; [|congruence].
    destruct (fixedParts lon2 precision) as [b2|] eqn:E4; [|congruence].
    unfold getCoordinateKey.
    rewrite (toFixed_fixedParts _ _ _ Hp E1), (toFixed_fixedParts _ _ _ Hp E2),
      (toFixed_fixedParts _ _ _ Hp E3), (toFixed_fixedParts _ _ _ Hp E4).
    cbn [bind]. rewrite !string_of_list_ascii_join. split.
    + intros [= H]. apply string_of_list_ascii_inj in H.
      apply join_inj in H as [Ha Hb]; try apply fixedChars_no_underscore.
      apply fixedChars_inj in Ha, Hb. now subst.
    + intros [[= ->] [= ->]]. reflexivity.
  - intros g e Hv. split; [apply getCoordinateKey_grid|].
    exists (hazardStep g e). split; [apply hazardCallback_step|].
    now rewrite keys_hazardStep, Hv.
  - intros i g r Hv. split; [apply getCoordinateKey_grid|].
    exists (reportStep i g r). split; [apply reportCallback_step|].
    now rewrite keys_reportStep, Hv.
Qed.

(* ================================================================== *)
(** ** Further properties of [createUnifiedMarkerData]                  *)
(* ================================================================== *)

Lemma addKey_In (acc : list string) (k k' : string) :
  In k' (addKey acc k) <-> In k' acc \/ k' = k.
Proof.
  unfold addKey. destruct (existsb (String.eqb k) acc) eqn:E.
  - split; [auto|]. intros [H | ->]; [assumption|].
    apply existsb_exists in E as [x [Hx Ex]].
    apply String.eqb_eq in Ex. now subst.
  - rewrite in_app_iff. cbn. intuition.
Qed.

Lemma fold_addKey_In (l acc : list string) (k : string) :
  In k (fold_left addKey l acc) <-> In k acc \/ In k l.
Proof.
  revert acc; induction l as [|x l IH]; intro acc; cbn [fold_left].
  - cbn. intuition.
  - rewrite IH, addKey_In. cbn. intuition.
Qed.

Lemma firstOccurrences_In (l : list string) (k : string) :
  In k (firstOccurrences l) <-> In k l.
Proof. unfold firstOccurrences. rewrite fold_addKey_In. cbn. intuition. Qed.

Lemma firstOccurrences_nil (l : list string) :
  firstOccurrences l = [] <-> l = [].
Proof.
  split; [|now intros ->].
  destruct l as [|k l]; [reflexivity|]. intro H. exfalso.
  assert (Hin : In k (firstOccurrences (k :: l)))
    by (apply firstOccurrences_In; now left).
  rewrite H in Hin. exact Hin.
Qed.

Lemma cellsOfEvents_nil (hs : list HazardEvent.t) :
  cellsOfEvents hs = [] <-> Forall (fun e => eventValid e = false) hs.
Proof.
  unfold cellsOfEvents. induction hs as [|e hs IH]; cbn [flat_map].
  - split; [constructor | reflexivity].
  - destruct (eventValid e) eqn:E; cbn [app].
    + split; [discriminate | intro H; inversion H; congruence].
    + rewrite IH. split; [now constructor | intro H; now inversion H].
Qed.

Lemma cellsOfReports_nil (rs : list UserReport.t) :
  cellsOfReports rs = [] <-> Forall (fun r => reportValid r = false) rs.
Proof.
  unfold cellsOfReports. induction rs as [|r rs IH]; cbn [flat_map].
  - split; [constructor | reflexivity].
  - destruct (reportValid r) eqn:E; cbn [app].
    + split; [discriminate | intro H; inversion H; congruence].
    + rewrite IH. split; [now constructor | intro H; now inversion H].
Qed.

Lemma cellsOfEvents_In (hs : list HazardEvent.t) (k : string) :
  In k (cellsOfEvents hs) <->
  exists e, In e hs /\ eventValid e = true /\ eventKey e = k.
Proof.
  unfold cellsOfEvents. rewrite in_flat_map. split.
  - intros [e [He Hk]]. exists e. destruct (eventValid e); [|contradiction].
    destruct Hk as [<-|[]]. auto.
  - intros [e [He [Hv <-]]]. exists e. rewrite Hv. split; [assumption | now left].
Qed.

Lemma cellsOfReports_In (rs : list UserReport.t) (k : string) :
  In k (cellsOfReports rs) <->
  exists r, In r rs /\ reportValid r = true /\ reportKey r = k.
Proof.
  unfold cellsOfReports. rewrite in_flat_map. split.
  - intros [r [Hr Hk]]. exists r. destruct (reportValid r); [|contradiction].
    destruct Hk as [<-|[]]. auto.
  - intros [r [Hr [Hv <-]]]. exists r. rewrite Hv. split; [assumption | now left].
Qed.

Lemma Normal_inj {A : Type} (a b : A) : Normal a = Normal b -> a = b.
Proof. now intros [= ->]. Qed.

Lemma Array_sort_length {A : Type} (rank : A -> Z) (l : list A) :
  List.length (Array_sort (descendingBy rank) l) = List.length l.
Proof. apply Permutation_length, Array_sort_perm. Qed.

Lemma slice0_all {A : Type} (n : nat) (l : list A) :
  (List.length l <= n)%nat -> slice0 n l = l.
Proof. unfold slice0. apply firstn_all2. Qed.

(** X1. The unified list has one marker for each distinct cell of the
    records that pass the validation, up to the cap: its length is the
    smaller of 50 and the number of those cells. *)
Theorem unified_length (hs : list HazardEvent.t) (rs : list UserReport.t) :
  exists out,
    createUnifiedMarkerData hs rs = Normal out /\
    List.length out = Nat.min 50 (List.length (validCells hs rs)) /\
    (List.length out <= 50)%nat.
Proof.
  rewrite createUnifiedMarkerData_eq. eexists; split; [reflexivity|].
  unfold slice0, validCells. rewrite length_firstn.
  rewrite (Array_sort_length Marker.priority).
  rewrite <- keys_final. unfold Map_values, Map_keys. rewrite !length_map.
  split; [reflexivity | lia].
Qed.

Lemma output_nil_iff (hs : list HazardEvent.t) (rs : list UserReport.t) :
  slice0 50 (Array_sort byPriorityDesc (Map_values (finalGroups hs rs))) = []
  <->
  Forall (fun e => eventValid e = false) hs /\
  Forall (fun r => reportValid r = false) rs.
Proof.
  rewrite <- cellsOfEvents_nil, <- cellsOfReports_nil.
  assert (Hkeys := keys_final hs rs).
  split.
  - intro H.
    assert (Hlen : List.length (Map_keys (finalGroups hs rs)) = 0%nat).
    { apply (f_equal (@List.length _)) in H. unfold slice0 in H.
      rewrite length_firstn, (Array_sort_length Marker.priority) in H.
      unfold Map_values in H. unfold Map_keys.
      rewrite length_map in *. change (@List.length Marker.t []) with 0%nat in H.
      lia. }
    apply length_zero_iff_nil in Hlen. rewrite Hkeys in Hlen.
    apply (proj1 (firstOccurrences_nil _)) in Hlen.
    now apply app_eq_nil in Hlen.
  - intros [He Hr]. rewrite He, Hr in Hkeys. cbn in Hkeys.
    unfold Map_keys in Hkeys. apply map_eq_nil in Hkeys.
    now rewrite Hkeys.
Qed.

(** X2. The unified list is empty exactly when no hazard event and no
    user report passes the coordinate validation. *)
Theorem unified_empty_iff (hs : list HazardEvent.t) (rs : list UserReport.t) :
  createUnifiedMarkerData hs rs = Normal [] <->
  Forall (fun e => eventValid e = false) hs /\
  Forall (fun r => reportValid r = false) rs.
Proof.
  rewrite createUnifiedMarkerData_eq, <- output_nil_iff.
  split; [apply Normal_inj | now intros ->].
Qed.

Lemma output_all_when_few (hs : list HazardEvent.t) (rs : list UserReport.t) :
  (List.length (validCells hs rs) <= 50)%nat ->
  Permutation
    (slice0 50 (Array_sort byPriorityDesc (Map_values (finalGroups hs rs))))
    (Map_values (finalGroups hs rs)).
Proof.
  intro Hlen. rewrite slice0_all.
  - apply (Array_sort_perm Marker.priority).
  - rewrite (Array_sort_length Marker.priority).
    unfold validCells in Hlen. rewrite <- keys_final in Hlen.
    unfold Map_values, Map_keys in *. now rewrite length_map in *.
Qed.

(** X3. The cap drops only markers of lowest priority: a marker of the
    final map that is not in the unified list has a priority no higher
    than any marker of the list; and with at most 50 occupied cells
    nothing is dropped. *)
Theorem cap_drops_lowest_priority (hs : list HazardEvent.t)
  (rs : list UserReport.t) :
  exists out,
    createUnifiedMarkerData hs rs = Normal out /\
    (forall d m,
        In d (Map_values (finalGroups hs rs)) -> ~ In d out -> In m out ->
        Marker.priority d <= Marker.priority m) /\
    ((List.length (validCells hs rs) <= 50)%nat ->
     Permutation out (Map_values (finalGroups hs rs))).
Proof.
  rewrite createUnifiedMarkerData_eq. eexists; split; [reflexivity|].
  set (sorted := Array_sort byPriorityDesc (Map_values (finalGroups hs rs))).
  assert (Hperm : Permutation sorted (Map_values (finalGroups hs rs)))
    by apply (Array_sort_perm Marker.priority).
  assert (Hsorted : StronglySorted (rankGe Marker.priority) sorted)
    by apply (Array_sort_sorted Marker.priority).
  split.
  - intros d m Hd Hnot Hm. unfold slice0 in *.
    apply (Permutation_in _ (Permutation_sym Hperm)) in Hd.
    rewrite <- (firstn_skipn 50 sorted) in Hd, Hsorted.
    apply in_app_or in Hd as [Hd|Hd]; [contradiction|].
    clear Hnot. revert Hsorted Hm Hd.
    generalize (firstn 50 sorted) (skipn 50 sorted). intros kept dropped.
    induction kept as [|x kept IH]; cbn [app]; intros Hs Hm Hd; [contradiction|].
    inversion Hs as [|? ? Hs' Hx]; subst. destruct Hm as [<-|Hm].
    + apply (proj1 (Forall_forall _ _) Hx). apply in_or_app. now right.
    + now apply IH.
  - apply output_all_when_few.
Qed.

Lemma Placed_shape hs rs k m :
  Placed hs rs k m ->
  (Marker.type m = hazard_event /\ Marker.priority m = 10 /\
   exists e, In e hs /\ Marker.data m = EventData e) \/
  (Marker.type m = user_report /\
   exists r, In r rs /\ Marker.data m = ReportData r /\
     ((Marker.priority m = 9 \/ Marker.priority m = 8) /\
      ToBoolean (UserReport.isUserSubmission r) = true \/
      Marker.priority m = 5 /\
      ToBoolean (UserReport.isUserSubmission r) = false)).
Proof.
  intros [e He _ _ ->|r Hr _ _ ->|r i Hr _ _ Hown _ ->].
  - left. repeat split. now exists e.
  - right. split; [reflexivity|]. exists r. repeat split; [assumption|].
    cbn [reportMarker Marker.priority].
    destruct (ToBoolean (UserReport.isUserSubmission r)); auto.
  - right. split; [reflexivity|]. exists r.
    split; [eapply nth_error_In; eassumption|]. split; [reflexivity|].
    left. auto.
Qed.

(** X4. Every marker of the unified list is of one of two shapes: a
    hazard-event marker of priority 10 that refers to one of the given
    events, or a user-report marker that refers to one of the given
    reports, of priority 9 or 8 when the report is the user's own and
    of priority 5 when it is not. *)
Theorem unified_marker_shapes (hs : list HazardEvent.t)
  (rs : list UserReport.t) :
  exists out,
    createUnifiedMarkerData hs rs = Normal out /\
    Forall (fun m =>
      (Marker.type m = hazard_event /\ Marker.priority m = 10 /\
       exists e, In e hs /\ Marker.data m = EventData e) \/
      (Marker.type m = user_report /\
       exists r, In r rs /\ Marker.data m = ReportData r /\
         ((Marker.priority m = 9 \/ Marker.priority m = 8) /\
          ToBoolean (UserReport.isUserSubmission r) = true \/
          Marker.priority m = 5 /\
          ToBoolean (UserReport.isUserSubmission r) = false))) out.
Proof.
  rewrite createUnifiedMarkerData_eq. eexists; split; [reflexivity|].
  apply Forall_forall. intros m Hm.
  apply output_Placed in Hm as [k Hk]. now apply Placed_shape with k.
Qed.

(** X5. No cell of a valid record is lost before the cap: with at most
    50 distinct cells, the grid keys of the unified list are exactly
    the cells of the records that pass the validation. *)
Theorem every_valid_cell_is_shown (hs : list HazardEvent.t)
  (rs : list UserReport.t) :
  (List.length (validCells hs rs) <= 50)%nat ->
  exists out,
    createUnifiedMarkerData hs rs = Normal out /\
    Permutation (map markerKey out) (map Normal (validCells hs rs)) /\
    (forall e, In e hs -> eventValid e = true ->
               In (Normal (eventKey e)) (map markerKey out)) /\
    (forall r, In r rs -> reportValid r = true ->
               In (Normal (reportKey r)) (map markerKey out)).
Proof.
  intro Hlen. rewrite createUnifiedMarkerData_eq.
  eexists; split; [reflexivity|].
  pose proof (output_all_when_few hs rs Hlen) as Hall.
  set (out := slice0 50 _) in *.
  assert (Hperm : Permutation (map markerKey out)
                    (map Normal (validCells hs rs))).
  { rewrite (Permutation_map markerKey Hall).
    rewrite (groups_keys hs rs) by apply GroupsOk_final.
    unfold validCells. now rewrite keys_final. }
  split; [assumption|]. split.
  - intros e He Hv. apply (Permutation_in _ (Permutation_sym Hperm)).
    apply in_map, firstOccurrences_In, in_or_app. left.
    apply cellsOfEvents_In. now exists e.
  - intros r Hr Hv. apply (Permutation_in _ (Permutation_sym Hperm)).
    apply in_map, firstOccurrences_In, in_or_app. right.
    apply cellsOfReports_In. now exists r.
Qed.

(** *** The first hazard event of a cell *)

Lemma Map_get_set {V : Type} (g : JSMap V) (k k' : string) (v : V) :
  Map_get (Map_set g k v) k' =
  if String.eqb k k' then Some v else Map_get g k'.
Proof.
  induction g as [|[k0 v0] g IH]; cbn [Map_set Map_get].
  - reflexivity.
  - destruct (String.eqb k0 k) eqn:E0; cbn [Map_get].
    + apply String.eqb_eq in E0. subst k0.
      destruct (String.eqb k k'); reflexivity.
    + destruct (String.eqb k0 k') eqn:E1; [|exact IH].
      apply String.eqb_eq in E1. subst k0.
      rewrite String.eqb_sym in E0. now rewrite E0.
Qed.

Lemma Map_get_None {V : Type} (g : JSMap V) (k : string) :
  Map_get g k = None <-> Map_has g k = false.
Proof.
  induction g as [|[k0 v0] g IH]; cbn [Map_get].
  - split; reflexivity.
  - rewrite Map_has_cons. destruct (String.eqb k0 k); cbn [orb].
    + split; discriminate.
    + exact IH.
Qed.

Lemma In_Map_get {V : Type} (g : JSMap V) (k : string) (v : V) :
  NoDup (Map_keys g) -> In (k, v) g -> Map_get g k = Some v.
Proof.
  induction g as [|[k0 v0] g IH]; cbn [Map_get Map_keys map fst];
    intros Hnd Hin; [contradiction|].
  inversion Hnd as [|? ? Hnot Hnd']; subst.
  destruct Hin as [[= -> ->]|Hin].
  - now rewrite String.eqb_refl.
  - destruct (String.eqb k0 k) eqn:E; [|now apply IH].
    apply String.eqb_eq in E. subst k0. exfalso. apply Hnot.
    change k with (fst (k, v)). now apply in_map.
Qed.

Lemma events_get (hs : list HazardEvent.t) (g : Groups) (k : string) :
  Map_get (fold_left hazardStep hs g) k =
  match Map_get g k with
  | Some m => Some m
  | None => option_map eventMarker (firstEventIn hs k)
  end.
Proof.
  revert g; induction hs as [|e hs IH]; intro g;
    cbn [fold_left firstEventIn find].
  - now destruct (Map_get g k).
  - rewrite IH, hazardStep_eq. fold (firstEventIn hs k).
    destruct (eventValid e) eqn:Ev; cbn [andb]; [|reflexivity].
    destruct (Map_has g (eventKey e)) eqn:Eh.
    + destruct (String.eqb (eventKey e) k) eqn:Ek; [|reflexivity].
      apply String.eqb_eq in Ek. subst k.
      destruct (Map_get g (eventKey e)) eqn:Eg; [reflexivity|].
      apply Map_get_None in Eg. congruence.
    + rewrite Map_get_set.
      destruct (String.eqb (eventKey e) k) eqn:Ek.
      * apply String.eqb_eq in Ek. subst k.
        apply Map_get_None in Eh. now rewrite Eh.
      * reflexivity.
Qed.

Lemma reportStep_keeps_events (i : nat) (g : Groups) (r : UserReport.t)
  (k : string) (m : Marker.t) (e : HazardEvent.t) :
  Map_get (reportStep i g r) k = Some m ->
  Marker.data m = EventData e ->
  Map_get g k = Some m.
Proof.
  rewrite reportStep_eq. intros Hget Hdata.
  destruct (reportValid r); [|assumption].
  destruct (Map_has g (reportKey r)).
  - destruct (_ && _); [|assumption].
    rewrite Map_get_set in Hget.
    destruct (String.eqb (reportKey r) k); [|assumption].
    injection Hget as <-. discriminate Hdata.
  - rewrite Map_get_set in Hget.
    destruct (String.eqb (reportKey r) k); [|assumption].
    injection Hget as <-. discriminate Hdata.
Qed.

Lemma reportsFrom_keeps_events (rs : list UserReport.t) (i : nat)
  (g : Groups) (k : string) (m : Marker.t) (e : HazardEvent.t) :
  Map_get (reportsFrom i rs g) k = Some m ->
  Marker.data m = EventData e ->
  Map_get g k = Some m.
Proof.
  revert i g; induction rs as [|r rs IH]; intros i g; cbn [reportsFrom].
  - auto.
  - intros Hget Hdata.
    apply (reportStep_keeps_events i g r k m e); [|assumption].
    now apply (IH (S i)).
Qed.

(** X6. The first hazard event of a cell wins: a marker of the unified
    list that refers to a hazard event is that event's marker, and the
    event is the first one in the input that passes the validation and
    falls in its cell.  Later events of the cell, and reports that do
    not replace the marker, leave it as it is. *)
Theorem first_event_of_a_cell_wins (hs : list HazardEvent.t)
  (rs : list UserReport.t) :
  exists out,
    createUnifiedMarkerData hs rs = Normal out /\
    Forall (fun m =>
              forall e, Marker.data m = EventData e ->
                        m = eventMarker e /\
                        eventValid e = true /\
                        firstEventIn hs (eventKey e) = Some e) out.
Proof.
  rewrite createUnifiedMarkerData_eq. eexists; split; [reflexivity|].
  apply Forall_forall. intros m Hm e Hdata.
  apply In_output in Hm as [k Hk].
  destruct (GroupsOk_final hs rs) as [Hnd _].
  apply (In_Map_get _ _ _ Hnd) in Hk. unfold finalGroups in Hk.
  apply (reportsFrom_keeps_events _ _ _ _ _ e) in Hk; [|assumption].
  rewrite events_get in Hk. cbn [Map_get] in Hk.
  destruct (firstEventIn hs k) as [e'|] eqn:Ef; [|discriminate].
  cbn [option_map] in Hk. injection Hk as <-.
  cbn [eventMarker Marker.data] in Hdata. injection Hdata as ->.
  unfold firstEventIn in Ef. pose proof (find_some _ _ Ef) as [_ Hp].
  apply andb_true_iff in Hp as [Hv Hkey]. apply String.eqb_eq in Hkey.
  repeat split; [assumption|]. unfold firstEventIn. now rewrite Hkey.
Qed.

(** *** Reports that are not the user's own *)

Lemma events_priority (hs : list HazardEvent.t) (g : Groups) :
  Forall (fun km => Marker.priority (snd km) = 10) g ->
  Forall (fun km => Marker.priority (snd km) = 10) (fold_left hazardStep hs g).
Proof.
  revert g; induction hs as [|e hs IH]; intros g Hg; cbn [fold_left];
    [assumption|].
  apply IH. rewrite hazardStep_eq.
  destruct (eventValid e); [|assumption].
  destruct (Map_has g (eventKey e)); [assumption|].
  now apply Forall_Map_set.
Qed.

Lemma reports_not_own (rs : list UserReport.t) (i : nat) (g : Groups) :
  Forall (fun r => ToBoolean (UserReport.isUserSubmission r) = false) rs ->
  exists added,
    reportsFrom i rs g = g ++ added /\
    Forall (fun km => Marker.type (snd km) = user_report /\
                      Marker.priority (snd km) = 5) added.
Proof.
  revert i g; induction rs as [|r rs IH]; intros i g Hrs; cbn [reportsFrom].
  - exists []. now rewrite app_nil_r.
  - inversion Hrs as [|? ? Hr Hrs']; subst.
    assert (Hstep : reportStep i g r = g \/
                    reportStep i g r = g ++ [(reportKey r, reportMarker r)]).
    { rewrite reportStep_eq, Hr. cbn [andb].
      destruct (reportValid r); [|now left].
      destruct (Map_has g (reportKey r)) eqn:Eh; [now left|].
      right. now apply Map_set_fresh. }
    destruct Hstep as [-> | ->].
    + now apply IH.
    + destruct (IH (S i) (g ++ [(reportKey r, reportMarker r)]) Hrs')
        as [added [-> Hadded]].
      exists ((reportKey r, reportMarker r) :: added).
      rewrite <- app_assoc. split; [reflexivity|].
      constructor; [|assumption].
      cbn [snd reportMarker Marker.type Marker.priority].
      now rewrite Hr.
Qed.

Lemma Array_sort_app_top {A : Type} (rank : A -> Z) (p : Z)
  (top rest : list A) :
  Forall (fun a => rank a = p) top ->
  Forall (fun a => rank a <= p) rest ->
  Array_sort (descendingBy rank) (top ++ rest) =
  top ++ Array_sort (descendingBy rank) rest.
Proof.
  intros Htop Hrest. induction Htop as [|x top Hx Htop IH];
    cbn [app Array_sort fold_right]; [reflexivity|].
  fold (Array_sort (descendingBy rank) (top ++ rest)). rewrite IH.
  assert (Hall : Forall (fun a => rank a <= p)
                   (top ++ Array_sort (descendingBy rank) rest)).
  { apply Forall_app. split.
    - eapply Forall_impl; [|exact Htop]. cbn. intros; lia.
    - eapply Permutation_Forall; [|exact Hrest].
      symmetry. apply Array_sort_perm. }
  destruct Hall as [|y l Hy _]; cbn [sortInsert]; [reflexivity|].
  unfold descendingBy. replace (rank y - rank x <=? 0) with true;
    [reflexivity|]. symmetry. apply Z.leb_le. lia.
Qed.

(** X7. Reports that are not the user's own never displace, reorder or
    hide a hazard marker: when no report is an own submission, the
    unified list of the events alone is a prefix of the unified list of
    the events and the reports, and what follows it are user-report
    markers of priority 5. *)
Theorem citizen_reports_follow_the_events (hs : list HazardEvent.t)
  (rs : list UserReport.t) :
  Forall (fun r => ToBoolean (UserReport.isUserSubmission r) = false) rs ->
  exists eventsOnly rest,
    createUnifiedMarkerData hs [] = Normal eventsOnly /\
    createUnifiedMarkerData hs rs = Normal (eventsOnly ++ rest) /\
    Forall (fun m => Marker.priority m = 10) eventsOnly /\
    Forall (fun m => Marker.type m = user_report /\
                     Marker.priority m = 5) rest.
Proof.
  intro Hrs. rewrite !createUnifiedMarkerData_eq. unfold finalGroups.
  cbn [reportsFrom].
  set (g := fold_left hazardStep hs []).
  assert (Hg : Forall (fun km => Marker.priority (snd km) = 10) g)
    by (apply events_priority; constructor).
  destruct (reports_not_own rs 0 g Hrs) as [added [-> Hadded]].
  assert (Hvals : Forall (fun m => Marker.priority m = 10) (Map_values g)).
  { unfold Map_values. apply Forall_forall.
    intros m [km [<- Hkm]]%in_map_iff.
    apply (proj1 (Forall_forall _ _) Hg km Hkm). }
  assert (Hrest : Forall (fun m => Marker.type m = user_report /\
                                   Marker.priority m = 5)
                    (Map_values added)).
  { unfold Map_values. apply Forall_forall.
    intros m [km [<- Hkm]]%in_map_iff.
    apply (proj1 (Forall_forall _ _) Hadded km Hkm). }
  unfold Map_values in *. rewrite map_app. unfold byPriorityDesc.
  change (fun a b : Marker.t => Marker.priority b - Marker.priority a)
    with (descendingBy Marker.priority).
  rewrite (Array_sort_app_top Marker.priority 10); [|assumption|].
  2:{ eapply Forall_impl; [|exact Hrest]. cbn. intros m [_ ->]. lia. }
  rewrite (Array_sort_constant Marker.priority 10 (map snd g)) by assumption.
  rewrite (Array_sort_constant Marker.priority 5 (map snd added)).
  2:{ eapply Forall_impl; [|exact Hrest]. cbn. now intros m [_ ->]. }
  unfold slice0. rewrite firstn_app.
  exists (firstn 50 (map snd g)),
    (firstn (50 - List.length (map snd g)) (map snd added)).
  repeat split.
  - apply Forall_forall. intros m Hm.
    apply (proj1 (Forall_forall _ _) Hvals).
    rewrite <- (firstn_skipn 50 (map snd g)). apply in_or_app. now left.
  - apply Forall_forall. intros m Hm.
    apply (proj1 (Forall_forall _ _) Hrest).
    rewrite <- (firstn_skipn (50 - List.length (map snd g)) (map snd added)).
    apply in_or_app. now left.
Qed.

(* ================================================================== *)
(** ** Comparisons of numbers                                           *)
(* ================================================================== *)

Lemma Prim2SF_not_nan (x : float) :
  is_nan x = false -> Prim2SF x <> S754_nan.
Proof.
  unfold Prim2SF. intros ->.
  destruct (is_zero x); [discriminate|].
  destruct (is_infinity x); [discriminate|].
  destruct (Z.frexp x) as [r ex].
  destruct (shr_fexp _ _ _ _ _) as [sh e'].
  destruct (shr_m sh); discriminate.
Qed.

Lemma SFcompare_antisym (a b : spec_float) :
  SFcompare b a = option_map CompOpp (SFcompare a b).
Proof.
  destruct a as [sa|sa| |sa ma ea], b as [sb|sb| |sb mb eb];
    cbn [SFcompare option_map]; try reflexivity;
    try (destruct sa; reflexivity); try (destruct sb; reflexivity);
    try (destruct sa, sb; reflexivity).
  destruct sa, sb; cbn [CompOpp]; try reflexivity;
    rewrite (Z.compare_antisym ea eb);
    destruct (ea ?= eb); cbn [CompOpp]; try reflexivity;
    rewrite (Pos.compare_cont_antisym ma mb Eq); reflexivity.
Qed.

(** Of two numbers, neither of them NaN, one is below the other or the
    other is at most the one. *)
Lemma ltb_false_leb (x y : float) :
  is_nan x = false -> is_nan y = false ->
  (x <? y)%float = false -> (y <=? x)%float = true.
Proof.
  intros Hx Hy. rewrite ltb_spec, leb_spec.
  apply Prim2SF_not_nan in Hx, Hy.
  unfold SFltb, SFleb. rewrite (SFcompare_antisym (Prim2SF x) (Prim2SF y)).
  destruct (Prim2SF x) as [sa|sa| |sa ma ea], (Prim2SF y) as [sb|sb| |sb mb eb];
    try congruence;
    destruct (SFcompare _ _) as [[| |]|] eqn:E; cbn; try congruence;
    cbn in E; discriminate E.
Qed.

Lemma valid_inRange (lat lon : float) :
  invalidCoordinates lat lon = false -> inRange lat lon = true.
Proof.
  unfold invalidCoordinates, inRange. intro H.
  do 7 (apply orb_false_iff in H as [H ?]).
  assert (Hlat : is_nan lat = false) by assumption.
  assert (Hlon : is_nan lon = false) by assumption.
  rewrite !andb_true_iff. repeat split; apply ltb_false_leb;
    assumption || reflexivity.
Qed.

Lemma Placed_inRange hs rs k m :
  Placed hs rs k m ->
  invalidCoordinates (parseFloat (Marker.lat m)) (parseFloat (Marker.lon m))
  = false.
Proof.
  intros [e _ Hv _ ->|r _ Hv _ ->|r i _ Hv _ _ _ ->];
    cbn [eventMarker reportMarker overrideMarker Marker.lat Marker.lon];
    unfold eventValid, reportValid in Hv; apply negb_true_iff in Hv;
    pose proof (invalidCoordinates_false _ _ Hv) as [Hlat Hlon];
    rewrite ?parseFloat_number by assumption; assumption.
Qed.

(** X8. Every marker of the unified list has coordinates that read as
    numbers within [-90, 90] x [-180, 180], neither of them zero or
    NaN. *)
Theorem unified_coordinates_in_range (hs : list HazardEvent.t)
  (rs : list UserReport.t) :
  exists out,
    createUnifiedMarkerData hs rs = Normal out /\
    Forall (fun m =>
              inRange (parseFloat (Marker.lat m)) (parseFloat (Marker.lon m))
                = true /\
              numberFalsy (parseFloat (Marker.lat m)) = false /\
              numberFalsy (parseFloat (Marker.lon m)) = false) out.
Proof.
  rewrite createUnifiedMarkerData_eq. eexists; split; [reflexivity|].
  apply Forall_forall. intros m Hm.
  apply output_Placed in Hm as [k Hk].
  apply Placed_inRange in Hk.
  split; [now apply valid_inRange|].
  now apply invalidCoordinates_false.
Qed.

(* ================================================================== *)
(** ** The callers of [createUnifiedMarkerData]                         *)
(* ================================================================== *)

Lemma parseFloat_number_valid (x : float) :
  numberFalsy (parseFloat (JSNumber x)) = false ->
  parseFloat (JSNumber x) = x.
Proof.
  cbn [parseFloat]. destruct (is_zero x); [discriminate | reflexivity].
Qed.

(** A field that parses to a number other than zero and NaN is a
    number or a string. *)
Lemma valid_raw (v : JSValue) :
  numberFalsy (parseFloat v) = false ->
  (exists x, v = JSNumber x) \/ (exists s, v = JSString s).
Proof.
  destruct v as [| |b|x|s]; cbn [parseFloat]; try discriminate; eauto.
Qed.

Lemma Placed_numeric hs rs k m :
  Forall (fun r => hasNumberCoordinates r = true) rs ->
  Placed hs rs k m ->
  exists x y,
    Marker.lat m = JSNumber x /\ Marker.lon m = JSNumber y /\
    invalidCoordinates x y = false.
Proof.
  intros Hnum [e _ Hv _ ->|r _ Hv _ ->|r i Hr Hv _ _ _ ->];
    unfold eventValid, reportValid in Hv; apply negb_true_iff in Hv.
  - eexists _, _. repeat split. exact Hv.
  - eexists _, _. repeat split. exact Hv.
  - apply nth_error_In in Hr.
    pose proof (proj1 (Forall_forall _ _) Hnum r Hr) as Hn.
    unfold hasNumberCoordinates in Hn.
    destruct (UserReport.lat r) as [| |?|x|?] eqn:Elat; try discriminate.
    destruct (UserReport.lon r) as [| |?|y|?] eqn:Elon; try discriminate.
    exists x, y. cbn [overrideMarker Marker.lat Marker.lon].
    repeat split; try assumption.
    pose proof (invalidCoordinates_false _ _ Hv) as [Hx Hy].
    now rewrite !parseFloat_number_valid in Hv by assumption.
Qed.

Lemma boundsCandidate_numeric (m : Marker.t) (x y : float) :
  Marker.lat m = JSNumber x -> Marker.lon m = JSNumber y ->
  invalidCoordinates x y = false ->
  boundsCandidate m = true.
Proof.
  intros Hlat Hlon Hv. unfold boundsCandidate. rewrite Hlat, Hlon.
  cbn [ToBoolean ToNumber].
  destruct (invalidCoordinates_false _ _ Hv) as [-> ->].
  now rewrite (valid_inRange _ _ Hv).
Qed.

Lemma filter_all_true {A : Type} (f : A -> bool) (l : list A) :
  (forall x, In x l -> f x = true) -> filter f l = l.
Proof.
  intro H. apply filter_all. now apply forallb_forall.
Qed.

(** X9. [FitBounds] moves the map to the default view, centre
    (10, 80) at zoom 6, when no record passes the validation.  When
    the coordinates of the reports are numbers, it otherwise fits the
    map, with padding 20 and zoom at most 12, to the coordinates of
    all the unified markers: none of them is filtered out, whatever
    radius is selected. *)
Theorem FitBounds_fits_all_markers :
  (forall (hs : list HazardEvent.t) (rs : list UserReport.t),
      Forall (fun e => eventValid e = false) hs ->
      Forall (fun r => reportValid r = false) rs ->
      FitBounds hs rs = Normal (map_setView (10, 80)%float 6)) /\
  (forall (hs : list HazardEvent.t) (rs : list UserReport.t),
      Forall (fun r => hasNumberCoordinates r = true) rs ->
      exists out,
        createUnifiedMarkerData hs rs = Normal out /\
        FitBounds hs rs =
        Normal (match out with
                | [] => map_setView (10, 80)%float 6
                | _ => map_fitBounds (map coordinatesOf out) (20, 20) 12
                end)).
Proof.
  split.
  - intros hs rs He Hr. unfold FitBounds.
    rewrite createUnifiedMarkerData_eq. cbn [bind].
    now rewrite (proj2 (output_nil_iff hs rs) (conj He Hr)).
  - intros hs rs Hnum. unfold FitBounds.
    rewrite createUnifiedMarkerData_eq. cbn [bind].
    eexists; split; [reflexivity|].
    set (out := slice0 50 _).
    rewrite (filter_all_true boundsCandidate out).
    + destruct out; reflexivity.
    + intros m Hm. apply output_Placed in Hm as [k Hk].
      destruct (Placed_numeric _ _ _ _ Hnum Hk) as [x [y [Hlat [Hlon Hv]]]].
      now apply boundsCandidate_numeric with x y.
Qed.

Lemma toFixed_in_range (x : float) (digits : Z) :
  0 <= digits <= 100 -> exists s, toFixed x digits = Normal s.
Proof.
  intro H. unfold toFixed.
  replace ((digits <? 0) || (100 <? digits)) with false
    by (symmetry; apply orb_false_iff; split; apply Z.ltb_ge; lia).
  destruct (Prim2SF x) as [sg|sg| |sg m e]; try (eexists; reflexivity).
  destruct (atLeast1e21 m e); eexists; reflexivity.
Qed.

Lemma markerLocation_numbers (m : Marker.t) (x y : float) :
  Marker.lat m = JSNumber x -> Marker.lon m = JSNumber y ->
  exists a b, markerLocation m = Normal (a, b).
Proof.
  intros Hlat Hlon. unfold markerLocation. rewrite Hlat, Hlon.
  cbn [call_toFixed].
  destruct (toFixed_in_range x 4) as [a ->]; [lia|].
  destruct (toFixed_in_range y 4) as [b ->]; [lia|].
  now exists a, b.
Qed.

(** X10. The location line of a popup, which calls [toFixed(4)] on the
    marker's coordinates, is produced for every unified marker whose
    coordinates were stored as numbers, which covers all hazard-event
    markers and all inserted reports.  It can fail only with a
    TypeError, and only for a marker of priority 9, placed by a recent
    own report over an occupant, whose report gives a coordinate as a
    string. *)
Theorem location_line_of_unified_markers (hs : list HazardEvent.t)
  (rs : list UserReport.t) :
  exists out,
    createUnifiedMarkerData hs rs = Normal out /\
    Forall (fun m =>
      (exists a b, markerLocation m = Normal (a, b)) \/
      (markerLocation m = Throw TypeError /\
       Marker.priority m = 9 /\
       exists r s,
         In r rs /\ Marker.data m = ReportData r /\
         (UserReport.lat r = JSString s \/ UserReport.lon r = JSString s)))
      out.
Proof.
  rewrite createUnifiedMarkerData_eq. eexists; split; [reflexivity|].
  apply Forall_forall. intros m Hm.
  apply output_Placed in Hm as [k [e _ _ _ ->|r _ _ _ ->|r i Hr Hv _ _ _ ->]].
  - left. eapply markerLocation_numbers; reflexivity.
  - left. eapply markerLocation_numbers; reflexivity.
  - unfold reportValid in Hv. apply negb_true_iff in Hv.
    destruct (invalidCoordinates_false _ _ Hv) as [Hlat Hlon].
    apply nth_error_In in Hr.
    destruct (valid_raw _ Hlat) as [[x Ex]|[s Es]].
    + destruct (valid_raw _ Hlon) as [[y Ey]|[s Es]].
      * left. now apply markerLocation_numbers with x y.
      * right. split; [|split; [reflexivity|]].
        -- unfold markerLocation.
           cbn [overrideMarker Marker.lat Marker.lon]. rewrite Ex, Es.
           cbn [call_toFixed].
           destruct (toFixed_in_range x 4) as [a ->]; [lia|]. reflexivity.
        -- exists r, s. auto.
    + right. split; [|split; [reflexivity|]].
      * unfold markerLocation.
        cbn [overrideMarker Marker.lat Marker.lon]. now rewrite Es.
      * exists r, s. auto.
Qed.

Lemma sampleEvent_valid (iso : string) : eventValid (sampleEvent iso) = true.
Proof. reflexivity. Qed.

Lemma sampleReport_valid (iso : string) : reportValid (sampleReport iso) = true.
Proof. reflexivity. Qed.

Lemma sampleReport_key (iso : string) :
  reportKey (sampleReport iso) = "13.100_80.300"%string.
Proof. reflexivity. Qed.

(** X11. Without hazard events (the prop missing, null or empty),
    [HazardMap] unifies its sample flood event with the reports, so
    the unified list is never empty, whatever the reports are. *)
Theorem HazardMap_without_events_is_not_empty (isoEvent isoReport : string)
  (userReports : option (list UserReport.t)) :
  (exists m rest,
      HazardMap_unifiedMarkers isoEvent isoReport None userReports
      = Normal (m :: rest)) /\
  (exists m rest,
      HazardMap_unifiedMarkers isoEvent isoReport (Some []) userReports
      = Normal (m :: rest)).
Proof.
  assert (H : forall rs,
             exists m rest,
               createUnifiedMarkerData [sampleEvent isoEvent] rs
               = Normal (m :: rest)).
  { intro rs. rewrite createUnifiedMarkerData_eq.
    destruct (slice0 50 _) as [|m rest] eqn:E; [|now exists m, rest].
    apply output_nil_iff in E as [He _]. inversion He as [|? ? Hv _].
    rewrite sampleEvent_valid in Hv. discriminate Hv. }
  split; apply H.
Qed.

(** X12. Given hazard events but no user report, [HazardMap] adds its
    sample report to the real events: when no valid event lies in the
    sample report's cell (13.100, 80.300) and the events occupy fewer
    than 50 cells, the unified list holds the sample report's marker,
    an own submission of priority 8. *)
Theorem HazardMap_shows_the_sample_report (isoEvent isoReport : string)
  (e : HazardEvent.t) (rest : list HazardEvent.t) :
  (forall e', In e' (e :: rest) -> eventValid e' = true ->
              eventKey e' <> "13.100_80.300"%string) ->
  (List.length (firstOccurrences (cellsOfEvents (e :: rest))) < 50)%nat ->
  exists out,
    HazardMap_unifiedMarkers isoEvent isoReport (Some (e :: rest)) None
    = Normal out /\
    In (reportMarker (sampleReport isoReport)) out /\
    Marker.priority (reportMarker (sampleReport isoReport)) = 8.
Proof.
  intros Hfree Hlen. unfold HazardMap_unifiedMarkers.
  cbn [sampleHazardEvents sampleUserReports].
  set (hs := e :: rest) in *. set (s := sampleReport isoReport).
  assert (Hvalid : reportValid s = true) by apply sampleReport_valid.
  assert (Hkey : reportKey s = "13.100_80.300"%string)
    by apply sampleReport_key.
  rewrite createUnifiedMarkerData_eq. eexists; split; [reflexivity|].
  split; [|reflexivity].
  assert (Hhas : Map_has (fold_left hazardStep hs []) (reportKey s) = false).
  { apply Map_has_false. rewrite keys_events. cbn [Map_keys map].
    fold (firstOccurrences (cellsOfEvents hs)).
    rewrite firstOccurrences_In, cellsOfEvents_In.
    intros [e' [He' [Hv Hk]]]. apply (Hfree e' He' Hv).
    now rewrite Hk. }
  assert (Hfinal : finalGroups hs [s] =
                   fold_left hazardStep hs [] ++ [(reportKey s, reportMarker s)]).
  { unfold finalGroups. cbn [reportsFrom].
    rewrite reportStep_eq, Hvalid, Hhas.
    now apply Map_set_fresh. }
  assert (Hcells : (List.length (validCells hs [s]) <= 50)%nat).
  { unfold validCells. rewrite <- keys_final, Hfinal.
    unfold Map_keys. rewrite map_app, length_app. cbn [map List.length].
    change (map fst (fold_left hazardStep hs []))
      with (Map_keys (fold_left hazardStep hs [])).
    rewrite keys_events. cbn [Map_keys map].
    fold (firstOccurrences (cellsOfEvents hs)). lia. }
  apply (Permutation_in _ (Permutation_sym (output_all_when_few hs [s] Hcells))).
  rewrite Hfinal. unfold Map_values. rewrite map_app.
  apply in_or_app. right. now left.
Qed.

(* ================================================================== *)
(** ** The order of numbers                                             *)
(* ================================================================== *)

Ltac compare_cases :=
  repeat match goal with
  | |- context [Z.compare ?a ?b] =>
    destruct (Z.compare_spec a b); subst
  | H : context [Z.compare ?a ?b] |- _ =>
    destruct (Z.compare_spec a b); subst
  | |- context [Pos.compare ?a ?b] =>
    destruct (Pos.compare_spec a b); subst
  | H : context [Pos.compare ?a ?b] |- _ =>
    destruct (Pos.compare_spec a b); subst
  end.

Lemma SFleb_trans (a b c : spec_float) :
  SFleb a b = true -> SFleb b c = true -> SFleb a c = true.
Proof.
  unfold SFleb.
  destruct a as [sa|sa| |sa ma ea], b as [sb|sb| |sb mb eb],
    c as [sc|sc| |sc mc ec];
    cbn [SFcompare]; try discriminate; try reflexivity;
    try (destruct sa; try discriminate; try reflexivity);
    try (destruct sb; try discriminate; try reflexivity);
    try (destruct sc; try discriminate; try reflexivity);
    change (Pos.compare_cont Eq) with Pos.compare;
    intros H1 H2; compare_cases; cbn [CompOpp] in *;
    try discriminate; try reflexivity; try lia.
Qed.

(** [<=] on numbers is transitive. *)
Lemma leb_trans (x y z : float) :
  (x <=? y)%float = true -> (y <=? z)%float = true ->
  (x <=? z)%float = true.
Proof. rewrite !leb_spec. apply SFleb_trans. Qed.

Lemma leb_nan_r (x y : float) :
  is_nan y = true -> (x <=? y)%float = false.
Proof.
  unfold is_nan. rewrite leb_spec, eqb_spec. intro H.
  apply negb_true_iff in H. unfold SFleb, SFeqb in *.
  destruct (Prim2SF y) as [sb|sb| |sb mb eb]; cbn [SFcompare] in H.
  - discriminate.
  - destruct sb; discriminate.
  - now destruct (Prim2SF x).
  - destruct sb; rewrite Z.compare_refl, Pos.compare_cont_refl in H;
      discriminate.
Qed.

Lemma leb_zero_r (c x : float) :
  (c <=? 0)%float = false -> is_zero x = true -> (c <=? x)%float = false.
Proof.
  unfold is_zero. rewrite !leb_spec, eqb_spec. intros Hc Hx.
  unfold SFeqb in Hx.
  change (Prim2SF zero) with (S754_zero false) in *.
  destruct (Prim2SF x) as [sb|sb| |sb mb eb]; cbn [SFcompare] in Hx.
  - unfold SFleb in *. now destruct (Prim2SF c).
  - destruct sb; discriminate.
  - discriminate.
  - destruct sb; discriminate.
Qed.

(** A falsy number is below every positive constant of the code. *)
Lemma leb_falsy (c x : float) :
  (c <=? 0)%float = false -> numberFalsy x = true ->
  (c <=? x)%float = false.
Proof.
  unfold numberFalsy. intros Hc [H|H]%orb_true_iff.
  - now apply leb_zero_r.
  - now apply leb_nan_r.
Qed.

(* ================================================================== *)
(** ** The icons                                                        *)
(* ================================================================== *)

(** X13. A hazard icon is 45 pixels wide, fully opaque and pulsing
    with a period of one second when the status is ['emergency'],
    whatever the type and the confidence; otherwise its size is 40, 35
    or 28, by the confidence, and its opacity 1, 0.9 or 0.7: the
    initial size 30 and opacity 0.8 never reach the icon.  The anchor
    is always the centre of the icon. *)
Theorem hazard_icon_sizes (type status confidence : JSValue) :
  let i := createHazardIcon type status confidence in
  (isEmergency status = true ->
   HazardIcon.size i = 45%float /\
   HazardIcon.opacity i = 1%float /\
   HazardIcon.pulseAnimation i = "animation: pulse 1s infinite;"%string /\
   HazardIcon.iconAnchor i = (22.5, 22.5)%float) /\
  (isEmergency status = false ->
   (HazardIcon.size i = 40%float /\ HazardIcon.opacity i = 1%float /\
    HazardIcon.pulseAnimation i = "animation: pulse 2s infinite;"%string /\
    HazardIcon.badgeColor i = "#27ae60"%string) \/
   (HazardIcon.size i = 35%float /\ HazardIcon.opacity i = 0.9%float /\
    HazardIcon.pulseAnimation i = EmptyString /\
    HazardIcon.badgeColor i = "#f39c12"%string) \/
   (HazardIcon.size i = 28%float /\ HazardIcon.opacity i = 0.7%float /\
    HazardIcon.pulseAnimation i = EmptyString /\
    HazardIcon.badgeColor i = "#e74c3c"%string)) /\
  HazardIcon.iconSize i = (HazardIcon.size i, HazardIcon.size i) /\
  HazardIcon.iconAnchor i =
    (HazardIcon.size i / 2, HazardIcon.size i / 2)%float /\
  ((HazardIcon.size i <? 45)%float = negb (isEmergency status)).
Proof.
  cbv zeta. unfold createHazardIcon.
  set (c := ToNumber _).
  destruct (isEmergency status);
    (destruct (0.8 <=? c)%float; [|destruct (0.5 <=? c)%float]);
    cbn [HazardIcon.size HazardIcon.opacity HazardIcon.pulseAnimation
         HazardIcon.iconAnchor HazardIcon.iconSize HazardIcon.badgeColor];
    (split; [intro H; try discriminate H; repeat split|]);
    (split; [intro H; try discriminate H; auto 10|]);
    repeat split.
Qed.

Lemma find_none_all {A : Type} (f : A -> bool) (l : list A) :
  (forall x, In x l -> f x = false) -> find f l = None.
Proof.
  induction l as [|x l IH]; intro H; cbn [find]; [reflexivity|].
  rewrite (H x (or_introl eq_refl)). apply IH. intros y Hy. apply H. now right.
Qed.

Lemma existsb_none (name : string) (l : list string) :
  ~ In name l -> existsb (String.eqb name) l = false.
Proof.
  intro H. destruct (existsb _ l) eqn:E; [|reflexivity].
  apply existsb_exists in E as [x [Hx Ex]].
  apply String.eqb_eq in Ex. now subst.
Qed.

Lemma lookupLiteral_unknown (literal : list (string * string))
  (key : JSValue) (name : string) :
  propertyName key = Some name ->
  ~ In name (map fst literal) ->
  ~ In name objectPrototypeNames ->
  lookupLiteral literal key = None.
Proof.
  intros Hname Hown Hproto. unfold lookupLiteral. rewrite Hname.
  rewrite find_none_all, existsb_none; auto.
  intros [k v] Hin. cbn [fst]. apply String.eqb_neq. intros E.
  apply Hown. apply (in_map fst) in Hin. cbn [fst] in Hin. congruence.
Qed.

(** X14. A hazard type that is none of the six known types gets the
    fallback colour and the warning sign, and so does a type that is
    a number; a known type gets its own colour.  The fallback is
    missed by a type named like a member of [Object.prototype], such
    as ["constructor"], for which the lookup finds the inherited
    member. *)
Theorem hazard_icon_fallback (status confidence : JSValue) :
  (forall (type : JSValue) (name : string),
      propertyName type = Some name ->
      ~ In name ["flood"; "tsunami"; "tides"; "earthquake"; "landslide";
                 "emergency"]%string ->
      ~ In name objectPrototypeNames ->
      HazardIcon.color (createHazardIcon type status confidence)
        = OwnString "#7f8c8d" /\
      HazardIcon.icon (createHazardIcon type status confidence)
        = OwnString "⚠️") /\
  (forall x : float,
      HazardIcon.color (createHazardIcon (JSNumber x) status confidence)
        = OwnString "#7f8c8d" /\
      HazardIcon.icon (createHazardIcon (JSNumber x) status confidence)
        = OwnString "⚠️") /\
  (forall name : string,
      In name objectPrototypeNames ->
      HazardIcon.color (createHazardIcon (JSString name) status confidence)
        = PrototypeMember name) /\
  (forall name colour : string,
      In (name, colour) colors ->
      HazardIcon.color (createHazardIcon (JSString name) status confidence)
        = OwnString colour).
Proof.
  assert (Hcol : forall type,
             HazardIcon.color (createHazardIcon type status confidence)
             = orFallback (lookupLiteral colors type) "#7f8c8d").
  { intro type. unfold createHazardIcon.
    destruct (0.8 <=? _)%float; [|destruct (0.5 <=? _)%float];
      destruct (isEmergency status); reflexivity. }
  assert (Hico : forall type,
             HazardIcon.icon (createHazardIcon type status confidence)
             = orFallback (lookupLiteral icons type) "⚠️").
  { intro type. unfold createHazardIcon.
    destruct (0.8 <=? _)%float; [|destruct (0.5 <=? _)%float];
      destruct (isEmergency status); reflexivity. }
  split; [|split; [|split]].
  - intros type name Hname Hknown Hproto. rewrite Hcol, Hico.
    rewrite (lookupLiteral_unknown colors type name),
      (lookupLiteral_unknown icons type name); auto.
  - intro x. rewrite Hcol, Hico. split; reflexivity.
  - intros name Hin. rewrite Hcol.
    repeat (destruct Hin as [<-|Hin]; [reflexivity|]). contradiction.
  - intros name colour Hin. rewrite Hcol.
    repeat (destruct Hin as [[= <- <-]|Hin]; [reflexivity|]). contradiction.
Qed.

Lemma ToNumber_falsy (v : JSValue) :
  ToBoolean v = false -> numberFalsy (ToNumber v) = true.
Proof.
  destruct v as [| |b|x|s]; cbn [ToBoolean ToNumber]; try reflexivity.
  - now intros ->.
  - now intros ->%negb_false_iff.
  - destruct s; [reflexivity | discriminate].
Qed.

Lemma getConfidenceLevel_high (confidence : JSValue) :
  (0.8 <=? ToNumber confidence)%float = true ->
  getConfidenceLevel confidence = "high"%string.
Proof.
  intro H. unfold getConfidenceLevel.
  now rewrite (leb_trans 0.7 0.8 (ToNumber confidence) eq_refl H).
Qed.

(** X15. The icon and the popup of a hazard event read its confidence
    differently.  When the badge of the icon is green (confidence at
    least 0.8) the popup's confidence level is ["high"].  But an event
    whose confidence is falsy (missing, null, zero, NaN) is drawn with
    the icon of confidence 0.5, an orange badge showing 50, while its
    popup reports the level ["low"]. *)
Theorem icon_and_level_of_an_event (data : HazardEvent.t) :
  (HazardIcon.badgeColor (eventIcon data) = "#27ae60"%string ->
   eventConfidenceLevel data = "high"%string) /\
  (ToBoolean (HazardEvent.confidence data) = false ->
   eventConfidenceLevel data = "low"%string /\
   HazardIcon.badgeColor (eventIcon data) = "#f39c12"%string /\
   HazardIcon.badgeNumber (eventIcon data) = 50%float).
Proof.
  unfold eventIcon, eventConfidenceLevel, js_or.
  destruct (ToBoolean (HazardEvent.confidence data)) eqn:Etruthy.
  - split; [|discriminate].
    assert (Harg : match HazardEvent.confidence data with
                   | JSUndefined => JSNumber 0.5
                   | _ => HazardEvent.confidence data
                   end = HazardEvent.confidence data).
    { destruct (HazardEvent.confidence data); try reflexivity.
      discriminate Etruthy. }
    unfold createHazardIcon. rewrite Harg.
    destruct (0.8 <=? ToNumber (HazardEvent.confidence data))%float eqn:E8.
    + intros _. now apply getConfidenceLevel_high.
    + destruct (0.5 <=? _)%float, (isEmergency _);
        cbn [HazardIcon.badgeColor]; discriminate.
  - split.
    + unfold createHazardIcon. cbn [ToNumber].
      destruct (isEmergency _); cbn [HazardIcon.badgeColor]; discriminate.
    + intros _. apply ToNumber_falsy in Etruthy.
      unfold getConfidenceLevel.
      rewrite (leb_falsy 0.7 _ eq_refl Etruthy),
        (leb_falsy 0.4 _ eq_refl Etruthy).
      unfold createHazardIcon. cbn [ToNumber].
      destruct (isEmergency _); repeat split.
Qed.

Lemma Placed_own hs rs k m :
  Placed hs rs k m ->
  forall r, Marker.data m = ReportData r ->
            ToBoolean (UserReport.isUserSubmission r) = true <->
            (Marker.priority m = 9 \/ Marker.priority m = 8).
Proof.
  intros [e _ _ _ ->|r0 _ _ _ ->|r0 i _ _ _ Hown _ ->] r;
    cbn [eventMarker reportMarker overrideMarker Marker.data Marker.priority];
    intros [= <-].
  - destruct (ToBoolean (UserReport.isUserSubmission r0)).
    + split; auto.
    + split; [discriminate | intros [H|H]; discriminate H].
  - split; auto.
Qed.

Lemma reportIcon_own (r : UserReport.t) :
  UserReportIcon.bgColor (reportIcon r)
    = "linear-gradient(45deg, #4CAF50, #66BB6A)"%string <->
  ToBoolean (UserReport.isUserSubmission r) = true.
Proof.
  unfold reportIcon, createUserReportIcon.
  assert (E : ToBoolean match UserReport.isUserSubmission r with
                        | JSUndefined => JSBool false
                        | _ => UserReport.isUserSubmission r
                        end = ToBoolean (UserReport.isUserSubmission r))
    by (destruct (UserReport.isUserSubmission r); reflexivity).
  rewrite E. destruct (ToBoolean (UserReport.isUserSubmission r)).
  - split; reflexivity.
  - destruct (negb _); cbn [UserReportIcon.bgColor]; split; discriminate.
Qed.

(** X16. The colour of a report's icon follows its priority in the
    unified list: a user-report marker has the green icon of an own
    submission exactly when its priority is 9 or 8.  A report that is
    not the user's own and has no [processed] field is drawn blue, as
    processed; one whose [processed] field is null or false is drawn
    red. *)
Theorem report_icon_follows_priority :
  (forall (hs : list HazardEvent.t) (rs : list UserReport.t),
      exists out,
        createUnifiedMarkerData hs rs = Normal out /\
        Forall (fun m =>
                  forall r, Marker.data m = ReportData r ->
                    (UserReportIcon.bgColor (reportIcon r)
                       = "linear-gradient(45deg, #4CAF50, #66BB6A)"%string
                     <-> (Marker.priority m = 9 \/ Marker.priority m = 8)))
          out) /\
  (forall r : UserReport.t,
      ToBoolean (UserReport.isUserSubmission r) = false ->
      (UserReport.processed r = JSUndefined ->
       UserReportIcon.bgColor (reportIcon r)
         = "linear-gradient(45deg, #2196F3, #42A5F5)"%string) /\
      (UserReport.processed r = JSNull \/
       UserReport.processed r = JSBool false ->
       UserReportIcon.bgColor (reportIcon r)
         = "linear-gradient(45deg, #F44336, #EF5350)"%string)).
Proof.
  split.
  - intros hs rs. rewrite createUnifiedMarkerData_eq.
    eexists; split; [reflexivity|].
    apply Forall_forall. intros m Hm r Hdata.
    apply output_Placed in Hm as [k Hk].
    rewrite reportIcon_own. now apply (Placed_own _ _ _ _ Hk).
  - intros r Hown. unfold reportIcon, createUserReportIcon.
    assert (E : ToBoolean match UserReport.isUserSubmission r with
                          | JSUndefined => JSBool false
                          | _ => UserReport.isUserSubmission r
                          end = false)
      by (destruct (UserReport.isUserSubmission r); auto).
    rewrite E. split.
    + intros ->. reflexivity.
    + intros [-> | ->]; reflexivity.
Qed.

(* ================================================================== *)
(** ** The radius of [pinsWithin]                                       *)
(* ================================================================== *)

Lemma Array_filter_weaken {A : Type} (p q : A -> Completion bool)
  (l : list A) :
  (forall x b, p x = Normal b ->
               exists b', q x = Normal b' /\ (b = true -> b' = true)) ->
  forall k, Array_filter p l = Normal k ->
            exists k', Array_filter q l = Normal k' /\ incl k k'.
Proof.
  intro Hpq. induction l as [|x l IH]; intros k Hk; cbn [Array_filter] in *.
  - apply Normal_inj in Hk as <-. exists []. split; [reflexivity|].
    apply incl_refl.
  - destruct (p x) as [b|e] eqn:Ep; [|discriminate Hk]. cbn [bind] in Hk.
    destruct (Array_filter p l) as [kept|e]; [|discriminate Hk].
    cbn [bind] in Hk. apply Normal_inj in Hk as <-.
    destruct (Hpq x b Ep) as [b' [-> Hb]].
    destruct (IH kept eq_refl) as [kept' [-> Hincl]]. cbn [bind].
    eexists. split; [reflexivity|].
    destruct b.
    + rewrite (Hb eq_refl). intros y [<-|Hy]; [now left|right; auto].
    + destruct b'; [apply incl_tl|]; exact Hincl.
Qed.

Lemma Array_filter_never {A : Type} (p : A -> Completion bool) (l : list A) :
  (forall x, p x <> Normal true) ->
  forall k, Array_filter p l = Normal k -> k = [].
Proof.
  intro Hp. induction l as [|x l IH]; intros k Hk; cbn [Array_filter] in *.
  - now apply Normal_inj in Hk.
  - destruct (p x) as [b|e] eqn:Ep; [|discriminate Hk]. cbn [bind] in Hk.
    destruct (Array_filter p l) as [kept|e]; [|discriminate Hk].
    cbn [bind] in Hk. apply Normal_inj in Hk as <-.
    destruct b; [now destruct (Hp x)|]. now apply IH.
Qed.

(** X17. [pinsWithin] grows with its radius: when it returns for a
    radius, it returns for every larger radius, and every marker kept
    for the smaller one is kept for the larger one.  A radius that is
    NaN keeps no marker at all. *)
Theorem pinsWithin_grows_with_the_radius (markers : list Marker.t)
  (mapCenter : float * float) :
  (forall (small large : float) (near : list Marker.t),
      (small <=? large)%float = true ->
      pinsWithin markers mapCenter small = Normal near ->
      exists wide,
        pinsWithin markers mapCenter large = Normal wide /\
        incl near wide) /\
  (forall (pinsRadius : float) (near : list Marker.t),
      is_nan pinsRadius = true ->
      pinsWithin markers mapCenter pinsRadius = Normal near ->
      near = []).
Proof.
  unfold pinsWithin. split.
  - intros small large near Hle.
    destruct (L_latLng _ _) as [centerLL|e]; [|discriminate]. cbn [bind].
    apply Array_filter_weaken. intros m b.
    destruct (negb _ || negb _).
    + intros [= <-]. exists false. now split.
    + destruct (L_latLng _ _) as [p|e]; [|discriminate]. cbn [bind].
      intros [= <-]. eexists. split; [reflexivity|].
      intro H. now apply leb_trans with small.
  - intros pinsRadius near Hnan.
    destruct (L_latLng _ _) as [centerLL|e]; [|discriminate]. cbn [bind].
    apply Array_filter_never. intro m.
    destruct (negb _ || negb _); [discriminate|].
    destruct (L_latLng _ _) as [p|e]; [|discriminate]. cbn [bind].
    rewrite (leb_nan_r _ _ Hnan). discriminate.
Qed.

(* ================================================================== *)
(** ** The precision of [getCoordinateKey]                              *)
(* ================================================================== *)



(* ================================================================== *)
(** ** The timestamps                                                   *)
(* ================================================================== *)

Lemma list_ascii_of_string_app (a b : string) :
  list_ascii_of_string (a ++ b)
  = list_ascii_of_string a ++ list_ascii_of_string b.
Proof.
  induction a as [|c a IH]; cbn [String.append list_ascii_of_string app];
    [reflexivity | now rewrite IH].
Qed.

Lemma includesChar_app (c : ascii) (l r : list ascii) :
  includesChar c (l ++ r) = includesChar c l || includesChar c r.
Proof. unfold includesChar. apply existsb_app. Qed.

Lemma treatAsUTC_marked (s : string) :
  exists s', treatAsUTC (JSString s) = JSString s' /\
    (includesChar "T" (list_ascii_of_string s')
     || includesChar "Z" (list_ascii_of_string s')
     || includesChar "+" (list_ascii_of_string s')) = true.
Proof.
  unfold treatAsUTC.
  destruct (includesChar "T" (list_ascii_of_string s)) eqn:ET;
    [exists s; now rewrite ET|].
  destruct (includesChar "Z" (list_ascii_of_string s)) eqn:EZ;
    [exists s; now rewrite ET, EZ|].
  destruct (includesChar "+" (list_ascii_of_string s)) eqn:EP;
    [exists s; now rewrite ET, EZ, EP|].
  cbn [negb andb]. eexists. split; [reflexivity|].
  rewrite list_ascii_of_string_app, !includesChar_app.
  change (includesChar "Z" (list_ascii_of_string "Z")) with true.
  now rewrite !orb_true_r.
Qed.

(** X19. The step that marks a timestamp as UTC is idempotent: after
    it a string always contains one of [T], [Z] and [+], so a second
    pass leaves the value alone. *)
Theorem treatAsUTC_idempotent (timestamp : JSValue) :
  treatAsUTC (treatAsUTC timestamp) = treatAsUTC timestamp /\
  (forall s, treatAsUTC timestamp = JSString s ->
             (includesChar "T" (list_ascii_of_string s)
              || includesChar "Z" (list_ascii_of_string s)
              || includesChar "+" (list_ascii_of_string s)) = true).
Proof.
  destruct timestamp as [| |b|x|s0];
    try (split; [reflexivity | intros s H; discriminate H]).
  destruct (treatAsUTC_marked s0) as [s' [E Hmarked]]. rewrite E. split.
  - unfold treatAsUTC.
    destruct (includesChar "T" (list_ascii_of_string s'));
      [reflexivity|].
    destruct (includesChar "Z" (list_ascii_of_string s'));
      [reflexivity|].
    destruct (includesChar "+" (list_ascii_of_string s'));
      [reflexivity | discriminate Hmarked].
  - intros s [= <-]. exact Hmarked.
Qed.

(** X20. Neither [formatUTCTimestamp] nor [getTimeAgo] throws, even
    when the [Date] constructor does.  Both hand the same string to the
    constructor and fail alike: they return ['Unknown time'] for a falsy
    timestamp and when the constructor throws, and ['Invalid date'] for
    a truthy timestamp that gives an invalid date. *)
Theorem timestamps_never_throw (now : Z) (timestamp : JSValue) :
  (exists text, formatUTCTimestamp timestamp = Normal text) /\
  (exists ago, getTimeAgo now timestamp = Normal ago) /\
  (ToBoolean timestamp = false \/
   (exists e, Date_new (treatAsUTC timestamp) = Throw e) ->
   formatUTCTimestamp timestamp = Normal "Unknown time"%string /\
   getTimeAgo now timestamp = Normal (TimeText "Unknown time")) /\
  (ToBoolean timestamp = true ->
   Date_new (treatAsUTC timestamp) = Normal None ->
   formatUTCTimestamp timestamp = Normal "Invalid date"%string /\
   getTimeAgo now timestamp = Normal (TimeText "Invalid date")).
Proof.
  unfold formatUTCTimestamp, getTimeAgo.
  destruct (ToBoolean timestamp); cbn [negb].
  - destruct (Date_new (treatAsUTC timestamp)) as [[t|]|e];
      cbn [bind tryCatch].
    + split; [eexists; reflexivity|]. split.
      * destruct (_ <? 1)%float; [eexists; reflexivity|].
        destruct (_ <? 60)%float; [eexists; reflexivity|].
        destruct (_ <? 24)%float; [eexists; reflexivity|].
        destruct (_ <? 7)%float; eexists; reflexivity.
      * split; [intros [H|[e H]]; discriminate H | intros _ H; discriminate H].
    + split; [eexists; reflexivity|]. split; [eexists; reflexivity|].
      split; [intros [H|[e H]]; discriminate H | now split].
    + split; [eexists; reflexivity|]. split; [eexists; reflexivity|].
      split; [now split | intros _ H; discriminate H].
  - split; [eexists; reflexivity|]. split; [eexists; reflexivity|].
    split; [now split | intro H; discriminate H].
Qed.

End HazardMap.

(* ================================================================== *)
(** ** The theorems at the sample records                               *)
(* ================================================================== *)

Lemma allDistinct_NoDup (l : list string) :
  allDistinct l = true -> NoDup l.
Proof.
  induction l as [|x l IH]; cbn [allDistinct]; intro H; constructor.
  - apply andb_true_iff in H as [H _]. apply negb_true_iff in H.
    intro Hin. assert (existsb (String.eqb x) l = true); [|congruence].
    apply existsb_exists. exists x. split; [assumption | apply String.eqb_refl].
  - apply IH. now apply andb_true_iff in H as [_ H].
Qed.

(** The scenarios of the design: a citizen report in the cell of a
    hazard event leaves the event's marker, of priority 10; an own
    report two minutes old takes the cell, with priority 9; an own
    report thirty-one minutes old does not. *)
Example citizen_report_in_occupied_cell :
  createUnifiedMarkerData sampleNumberToString sampleDate sampleClock
    [eventA] [citizenA] = Normal [eventMarker eventA].
Proof. reflexivity. Qed.

Example recent_own_report_in_occupied_cell :
  createUnifiedMarkerData sampleNumberToString sampleDate sampleClock
    [eventA] [ownStringsA] = Normal [overrideMarker ownStringsA].
Proof. reflexivity. Qed.

Example late_own_report_in_occupied_cell :
  createUnifiedMarkerData sampleNumberToString sampleDate sampleClock
    [eventA] [ownLateA] = Normal [eventMarker eventA].
Proof. reflexivity. Qed.

(** A report in a free cell is inserted; a later recent own report in
    that cell replaces it just as it would a hazard marker. *)
Example report_in_free_cell :
  createUnifiedMarkerData sampleNumberToString sampleDate sampleClock
    [eventB] [citizenA] =
  Normal [eventMarker eventB; reportMarker citizenA].
Proof. reflexivity. Qed.

Example own_report_replaces_a_report :
  createUnifiedMarkerData sampleNumberToString sampleDate sampleClock
    [eventB] [citizenA; ownNowA] =
  Normal [eventMarker eventB; overrideMarker ownNowA].
Proof. reflexivity. Qed.

(** C2 at [ownNowA] and at [ownLateA], both in the cell of [eventA]:
    the first replaces the hazard marker, the second does not. *)
Lemma override_iff_own_and_recent_witness :
  reportValid ownNowA = true /\
  Map_get groupsA (reportKey sampleNumberToString ownNowA)
    = Some (eventMarker eventA) /\
  0 <= sampleClock 0 <= 8640000000000000 /\
  (exists g',
      reportCallback sampleNumberToString sampleDate sampleClock 0 groupsA
        ownNowA = Normal g' /\
      Map_get g' (reportKey sampleNumberToString ownNowA)
        <> Some (eventMarker eventA)) /\
  (exists g',
      reportCallback sampleNumberToString sampleDate sampleClock 0 groupsA
        ownLateA = Normal g' /\
      Map_get g' (reportKey sampleNumberToString ownLateA)
        = Some (eventMarker eventA)).
Proof.
  assert (Hv : reportValid ownNowA = true) by reflexivity.
  assert (Hg : Map_get groupsA (reportKey sampleNumberToString ownNowA)
               = Some (eventMarker eventA)) by reflexivity.
  assert (Hc : 0 <= sampleClock 0 <= 8640000000000000)
    by (unfold sampleClock, sampleNow; lia).
  split; [exact Hv|]. split; [exact Hg|]. split; [exact Hc|]. split.
  - destruct (override_iff_own_and_recent sampleNumberToString sampleDate
                sampleClock 0%nat groupsA ownNowA (eventMarker eventA)
                Hv Hg eq_refl Hc)
      as [g' [Hrun [_ [_ [_ [_ [Hnow _]]]]]]].
    exists g'. split; [exact Hrun|].
    apply Hnow; reflexivity.
  - destruct (override_iff_own_and_recent sampleNumberToString sampleDate
                sampleClock 0%nat groupsA ownLateA (eventMarker eventA)
                eq_refl eq_refl eq_refl Hc)
      as [g' [Hrun [_ [_ [_ [_ [_ [Hlate _]]]]]]]].
    exists g'. split; [exact Hrun|].
    apply Hlate; reflexivity.
Defined.

(** The hypotheses of C3 hold of [sixtyEvents]. *)
Lemma sixty_events_keep_the_first_fifty_witness :
  List.length sixtyEvents = 60%nat /\
  Forall (fun e => eventValid e = true) sixtyEvents /\
  NoDup (map (eventKey sampleNumberToString) sixtyEvents) /\
  exists out,
    createUnifiedMarkerData sampleNumberToString sampleDate sampleClock
      sixtyEvents [] = Normal out /\
    List.length out = 50%nat.
Proof.
  assert (Hv : Forall (fun e => eventValid e = true) sixtyEvents).
  { assert (H : forallb eventValid sixtyEvents = true)
      by (vm_compute; reflexivity).
    rewrite forallb_forall in H. now apply Forall_forall. }
  assert (Hnd : NoDup (map (eventKey sampleNumberToString) sixtyEvents)).
  { apply allDistinct_NoDup. vm_compute. reflexivity. }
  repeat split; try assumption.
  destruct (sixty_events_keep_the_first_fifty sampleNumberToString sampleDate
              sampleClock sixtyEvents eq_refl Hv Hnd)
    as [out [Hrun [Hlen _]]].
  exists out. split; assumption.
Defined.

(** C3 fails as stated: of the sixty events, the fifty that are kept
    are the first fifty in input order, events 1 to 50, and not the
    last fifty, events 11 to 60. *)
Lemma sixty_events_drop_the_last_ten :
  exists out,
    createUnifiedMarkerData sampleNumberToString sampleDate sampleClock
      sixtyEvents [] = Normal out /\
    List.length out = 50%nat /\
    map Marker.data out = map EventData (firstn 50 sixtyEvents) /\
    map Marker.data out <> map EventData (skipn 10 sixtyEvents).
Proof.
  eexists. split; [vm_compute; reflexivity|].
  split; [reflexivity|]. split; [reflexivity|].
  intro H. apply (f_equal (map dataId)) in H. vm_compute in H.
  discriminate H.
Qed.

(** C4 fails as stated: a hazard event whose confidence is exactly 0
    gets a marker of confidence 0.5. *)
Lemma zero_confidence_becomes_default :
  exists m,
    createUnifiedMarkerData sampleNumberToString sampleDate sampleClock
      [zeroConfidenceEvent] [] = Normal [m] /\
    HazardEvent.confidence zeroConfidenceEvent = JSNumber 0 /\
    Marker.confidence m = JSNumber 0.5 /\
    Marker.confidence m <> HazardEvent.confidence zeroConfidenceEvent.
Proof.
  eexists. split; [vm_compute; reflexivity|].
  split; [reflexivity|]. split; [reflexivity|].
  intro H. apply (f_equal ToBoolean) in H. vm_compute in H.
  discriminate H.
Qed.

(** C5 at a hazard event on the equator and a report on the prime
    meridian. *)
Lemma zero_coordinate_is_skipped_witness :
  zeroCoordinate (EventData equatorEvent) = true /\
  hazardCallback sampleNumberToString groupsA equatorEvent
    = Normal groupsA /\
  zeroCoordinate (ReportData meridianReport) = true /\
  reportCallback sampleNumberToString sampleDate sampleClock 0 groupsA
    meridianReport = Normal groupsA /\
  createUnifiedMarkerData sampleNumberToString sampleDate sampleClock
    [equatorEvent] [meridianReport] = Normal [].
Proof.
  destruct (zero_coordinate_is_skipped sampleNumberToString sampleDate
              sampleClock) as [He [Hr _]].
  split; [reflexivity|].
  split; [apply He; reflexivity|].
  split; [reflexivity|].
  split; [apply Hr; reflexivity|].
  reflexivity.
Defined.

(** C6 fails as stated: with hazard events in cells A and B and two
    recent own reports given in the order B, A, the two markers of
    priority 9 come out in the order A, B of their cells, the reverse
    of the input order of the reports. *)
Lemma ties_follow_cells_not_reports :
  exists mA mB,
    createUnifiedMarkerData sampleNumberToString sampleDate sampleClock
      [eventA; eventB] [ownNowB; ownNowA] = Normal [mA; mB] /\
    Marker.data mA = ReportData ownNowA /\
    Marker.data mB = ReportData ownNowB /\
    Marker.priority mA = 9 /\
    Marker.priority mB = 9.
Proof.
  do 2 eexists. split; [vm_compute; reflexivity|].
  repeat split.
Qed.

(** C7 fails as stated: -0.0001 and 0.0001 both round to zero at three
    decimals, yet the keys differ, the first printing as [-0.000]. *)
Lemma rounding_to_zero_keeps_the_sign :
  roundedAt (-0.0001) 3 = roundedAt 0.0001 3 /\
  getCoordinateKey sampleNumberToString (-0.0001) 80 3
    = Normal "-0.000_80.000"%string /\
  getCoordinateKey sampleNumberToString 0.0001 80 3
    = Normal "0.000_80.000"%string /\
  getCoordinateKey sampleNumberToString (-0.0001) 80 3
    <> getCoordinateKey sampleNumberToString 0.0001 80 3.
Proof.
  repeat split. vm_compute. discriminate.
Qed.

(** C7 at the coordinates of [eventA] and of [ownNowA], which share a
    key at three decimals. *)
Lemma same_key_iff_same_sign_and_rounding_witness :
  0 <= 3 <= 100 /\
  fixedParts 13.0 3 = fixedParts 13.0001 3 /\
  fixedParts 80.0 3 = fixedParts 80.0001 3 /\
  getCoordinateKey sampleNumberToString 13.0 80.0 3
    = getCoordinateKey sampleNumberToString 13.0001 80.0001 3 /\
  eventValid eventA = true /\
  getCoordinateKey sampleNumberToString 13.0 80.0 GRID_PRECISION
    = Normal (eventKey sampleNumberToString eventA).
Proof.
  destruct (same_key_iff_same_sign_and_rounding sampleNumberToString
              sampleDate sampleClock) as [Hkey [Hevent _]].
  assert (Hp : 0 <= 3 <= 100) by lia.
  split; [exact Hp|].
  split; [reflexivity|].
  split; [reflexivity|].
  split.
  - apply (Hkey 13.0%float 80.0%float 13.0001%float 80.0001%float 3 Hp);
      try (vm_compute; discriminate).
    split; reflexivity.
  - split; [reflexivity|].
    destruct (Hevent [] eventA eq_refl) as [Hk _]. exact Hk.
Defined.



(** C9 at a record without coordinates, at a [Date] constructor that
    throws, and at a timestamp that is no date. *)
Lemma unification_never_throws_witness :
  eventValid noCoordinates = false /\
  hazardCallback sampleNumberToString groupsA noCoordinates
    = Normal groupsA /\
  createUnifiedMarkerData sampleNumberToString sampleDate sampleClock
    ([eventA] ++ noCoordinates :: [eventB]) [] =
  createUnifiedMarkerData sampleNumberToString sampleDate sampleClock
    ([eventA] ++ [eventB]) [] /\
  throwingDate (UserReport.timestamp ownNowA) = Throw TypeError /\
  reportCallback sampleNumberToString throwingDate sampleClock 0 groupsA
    ownNowA = Normal groupsA /\
  sampleDate (UserReport.timestamp ownBadDateA) = Normal None /\
  reportCallback sampleNumberToString sampleDate sampleClock 0 groupsA
    ownBadDateA = Normal groupsA.
Proof.
  destruct (unification_never_throws sampleNumberToString sampleDate
              sampleClock) as [_ [Hevent [_ [Hskip Hdate]]]].
  destruct (unification_never_throws sampleNumberToString throwingDate
              sampleClock) as [_ [_ [_ [_ Hthrow]]]].
  split; [reflexivity|].
  split; [apply Hevent; reflexivity|].
  split; [apply Hskip; reflexivity|].
  split; [reflexivity|].
  split.
  - apply Hthrow; [reflexivity | reflexivity |].
    left. exists TypeError. reflexivity.
  - split; [reflexivity|].
    apply Hdate; [reflexivity | reflexivity |].
    right. reflexivity.
Defined.

(** C10 at a recent own report whose coordinates arrive as strings:
    the marker that replaces [eventA]'s holds the strings. *)
Lemma override_stores_raw_coordinates_witness :
  reportValid ownStringsA = true /\
  Map_has groupsA (reportKey sampleNumberToString ownStringsA) = true /\
  ToBoolean (UserReport.isUserSubmission ownStringsA) = true /\
  recentAt sampleDate (sampleClock 0) ownStringsA = true /\
  exists m,
    reportCallback sampleNumberToString sampleDate sampleClock 0 groupsA
      ownStringsA = Normal [("13.000_80.000"%string, m)] /\
    Marker.priority m = 9 /\
    Marker.lat m = JSString "13.0001" /\
    Marker.lon m = JSString "80.0001".
Proof.
  destruct (override_stores_raw_coordinates sampleNumberToString sampleDate
              sampleClock) as [Hraw _].
  split; [reflexivity|]. split; [reflexivity|].
  split; [reflexivity|]. split; [reflexivity|].
  destruct (Hraw 0%nat groupsA ownStringsA eq_refl eq_refl eq_refl eq_refl)
    as [m [Hrun [Hprio [_ [_ [Hlat Hlon]]]]]].
  exists m. split; [exact Hrun|]. split; [exact Hprio|].
  split; [apply Hlat | apply Hlon]; reflexivity.
Defined.

(** Against C2 as it is worded: [ownFutureA], an own report in the cell
    of [eventA], is dated a year ahead of the clock, so not within the
    last 30 minutes; yet it replaces the hazard marker, with priority
    9. *)
Lemma future_own_report_overrides :
  reportValid ownFutureA = true /\
  Map_get groupsA (reportKey sampleNumberToString ownFutureA)
    = Some (eventMarker eventA) /\
  ToBoolean (UserReport.isUserSubmission ownFutureA) = true /\
  sampleDate (UserReport.timestamp ownFutureA)
    = Normal (Some (sampleClock 0 + 365 * 24 * 60 * 60 * 1000)) /\
  ~ withinLast30Minutes sampleDate (sampleClock 0) ownFutureA /\
  reportCallback sampleNumberToString sampleDate sampleClock 0 groupsA
    ownFutureA
  = Normal [("13.000_80.000"%string, overrideMarker ownFutureA)] /\
  Marker.priority (overrideMarker ownFutureA) = 9 /\
  createUnifiedMarkerData sampleNumberToString sampleDate sampleClock
    [eventA] [ownFutureA] = Normal [overrideMarker ownFutureA].
Proof.
  split; [reflexivity|]. split; [reflexivity|]. split; [reflexivity|].
  split; [reflexivity|]. split.
  - intros [t [Ht Hwindow]].
    change (sampleDate (UserReport.timestamp ownFutureA))
      with (@Normal TimeValue (Some 1798761600000)) in Ht.
    injection Ht as <-. unfold sampleClock, sampleNow in Hwindow. lia.
  - split; [reflexivity|]. split; reflexivity.
Qed.


(* ================================================================== *)
(** ** The further properties at the sample records                     *)
(* ================================================================== *)

(** X3 at two events and a citizen report in the cell of the first:
    nothing is dropped. *)
Lemma cap_drops_lowest_priority_witness :
  (List.length (validCells sampleNumberToString [eventA; eventB] [citizenA])
   <= 50)%nat /\
  exists out,
    createUnifiedMarkerData sampleNumberToString sampleDate sampleClock
      [eventA; eventB] [citizenA] = Normal out /\
    Permutation out
      (Map_values (finalGroups sampleNumberToString sampleDate sampleClock
                     [eventA; eventB] [citizenA])).
Proof.
  assert (H : (List.length
                 (validCells sampleNumberToString [eventA; eventB] [citizenA])
               <= 50)%nat) by (vm_compute; lia).
  split; [exact H|].
  destruct (cap_drops_lowest_priority sampleNumberToString sampleDate
              sampleClock [eventA; eventB] [citizenA])
    as [out [Hrun [_ Hall]]].
  exists out. split; [exact Hrun | exact (Hall H)].
Defined.

(** X5 at the same records: the cell of [eventB] is shown. *)
Lemma every_valid_cell_is_shown_witness :
  (List.length (validCells sampleNumberToString [eventA; eventB] [citizenA])
   <= 50)%nat /\
  eventValid eventB = true /\
  exists out,
    createUnifiedMarkerData sampleNumberToString sampleDate sampleClock
      [eventA; eventB] [citizenA] = Normal out /\
    In (Normal "14.000_80.000"%string)
      (map (markerKey sampleNumberToString) out).
Proof.
  assert (H : (List.length
                 (validCells sampleNumberToString [eventA; eventB] [citizenA])
               <= 50)%nat) by (vm_compute; lia).
  split; [exact H|]. split; [reflexivity|].
  destruct (every_valid_cell_is_shown sampleNumberToString sampleDate
              sampleClock [eventA; eventB] [citizenA] H)
    as [out [Hrun [_ [Hevents _]]]].
  exists out. split; [exact Hrun|].
  apply (Hevents eventB); [right; left; reflexivity | reflexivity].
Defined.

(** X7 at one event and a citizen report in another cell. *)
Lemma citizen_reports_follow_the_events_witness :
  ToBoolean (UserReport.isUserSubmission
               (mkReport "citizenB" (JSNumber 14.0001) (JSNumber 80.0001)
                  false tsNow)) = false /\
  exists eventsOnly rest,
    createUnifiedMarkerData sampleNumberToString sampleDate sampleClock
      [eventA] [] = Normal eventsOnly /\
    createUnifiedMarkerData sampleNumberToString sampleDate sampleClock
      [eventA]
      [mkReport "citizenB" (JSNumber 14.0001) (JSNumber 80.0001) false tsNow]
    = Normal (eventsOnly ++ rest) /\
    Forall (fun m => Marker.type m = user_report /\ Marker.priority m = 5)
      rest.
Proof.
  split; [reflexivity|].
  destruct (citizen_reports_follow_the_events sampleNumberToString sampleDate
              sampleClock [eventA]
              [mkReport "citizenB" (JSNumber 14.0001) (JSNumber 80.0001)
                 false tsNow])
    as [eventsOnly [rest [Hevents [Hall [_ Hrest]]]]].
  - constructor; [reflexivity | constructor].
  - exists eventsOnly, rest. split; [exact Hevents|].
    split; [exact Hall | exact Hrest].
Defined.

(** X9 at a record without coordinates, and at an event with a recent
    own report in another cell. *)
Lemma FitBounds_fits_all_markers_witness :
  eventValid noCoordinates = false /\
  FitBounds sampleNumberToString sampleDate sampleClock [noCoordinates] []
    = Normal (map_setView (10, 80)%float 6) /\
  hasNumberCoordinates ownNowB = true /\
  exists out,
    createUnifiedMarkerData sampleNumberToString sampleDate sampleClock
      [eventA] [ownNowB] = Normal out /\
    FitBounds sampleNumberToString sampleDate sampleClock [eventA] [ownNowB]
    = Normal (match out with
              | [] => map_setView (10, 80)%float 6
              | _ => map_fitBounds (map coordinatesOf out) (20, 20) 12
              end).
Proof.
  destruct (FitBounds_fits_all_markers sampleNumberToString sampleDate
              sampleClock) as [Hnone Hall].
  split; [reflexivity|]. split.
  - apply Hnone; [constructor; [reflexivity | constructor] | constructor].
  - split; [reflexivity|].
    apply Hall. constructor; [reflexivity | constructor].
Defined.

(** X12 at two events away from the sample report. *)
Lemma HazardMap_shows_the_sample_report_witness :
  eventKey sampleNumberToString eventA <> "13.100_80.300"%string /\
  eventKey sampleNumberToString eventB <> "13.100_80.300"%string /\
  (List.length (firstOccurrences
                  (cellsOfEvents sampleNumberToString [eventA; eventB]))
   < 50)%nat /\
  exists out,
    HazardMap_unifiedMarkers sampleNumberToString sampleDate sampleClock
      "2026-01-01T00:00:00.000Z" "2026-01-01T00:00:00.000Z"
      (Some [eventA; eventB]) None = Normal out /\
    In (reportMarker (sampleReport "2026-01-01T00:00:00.000Z")) out.
Proof.
  assert (HA : eventKey sampleNumberToString eventA
               <> "13.100_80.300"%string) by (vm_compute; discriminate).
  assert (HB : eventKey sampleNumberToString eventB
               <> "13.100_80.300"%string) by (vm_compute; discriminate).
  assert (Hfew : (List.length
                    (firstOccurrences
                       (cellsOfEvents sampleNumberToString [eventA; eventB]))
                  < 50)%nat) by (vm_compute; lia).
  split; [exact HA|]. split; [exact HB|]. split; [exact Hfew|].
  destruct (HazardMap_shows_the_sample_report sampleNumberToString sampleDate
              sampleClock "2026-01-01T00:00:00.000Z"
              "2026-01-01T00:00:00.000Z" eventA [eventB])
    as [out [Hrun [Hin _]]].
  - intros e' [<-|[<-|[]]] _; assumption.
  - exact Hfew.
  - exists out. split; [exact Hrun | exact Hin].
Defined.

(** X14 at a type the literals do not know. *)
Lemma hazard_icon_fallback_witness :
  propertyName (JSString "cyclone") = Some "cyclone"%string /\
  HazardIcon.color
    (createHazardIcon (JSString "cyclone") (JSString "active")
       (JSNumber 0.8)) = OwnString "#7f8c8d" /\
  HazardIcon.color
    (createHazardIcon (JSString "toString") (JSString "active")
       (JSNumber 0.8)) = PrototypeMember "toString".
Proof.
  destruct (hazard_icon_fallback (JSString "active") (JSNumber 0.8))
    as [Hunknown [_ [Hproto _]]].
  split; [reflexivity|]. split.
  - apply (Hunknown (JSString "cyclone") "cyclone"%string eq_refl).
    + intros [H|[H|[H|[H|[H|[H|[]]]]]]]; discriminate H.
    + intro H. vm_compute in H.
      repeat (destruct H as [H|H]; [discriminate H|]). exact H.
  - apply Hproto. do 5 right. left. reflexivity.
Defined.

(** X15 at an event of confidence zero and at one of confidence 0.8. *)
Lemma icon_and_level_of_an_event_witness :
  ToBoolean (HazardEvent.confidence zeroConfidenceEvent) = false /\
  eventConfidenceLevel zeroConfidenceEvent = "low"%string /\
  HazardIcon.badgeNumber (eventIcon zeroConfidenceEvent) = 50%float /\
  HazardIcon.badgeColor (eventIcon eventA) = "#27ae60"%string /\
  eventConfidenceLevel eventA = "high"%string.
Proof.
  destruct (icon_and_level_of_an_event zeroConfidenceEvent) as [_ Hzero].
  destruct (icon_and_level_of_an_event eventA) as [Hhigh _].
  split; [reflexivity|].
  destruct (Hzero eq_refl) as [Hlevel [_ Hnumber]].
  split; [exact Hlevel|]. split; [exact Hnumber|].
  split; [reflexivity | exact (Hhigh eq_refl)].
Defined.

(** X16 at a citizen report without a [processed] field. *)
Lemma report_icon_follows_priority_witness :
  ToBoolean (UserReport.isUserSubmission citizenA) = false /\
  UserReportIcon.bgColor
    (reportIcon
       {| UserReport.id := "unprocessed";
          UserReport.lat := JSNumber 13.0001;
          UserReport.lon := JSNumber 80.0001;
          UserReport.hazard_type := JSUndefined;
          UserReport.isUserSubmission := JSBool false;
          UserReport.processed := JSNull;
          UserReport.confidence := JSUndefined;
          UserReport.timestamp := tsNow |})
  = "linear-gradient(45deg, #F44336, #EF5350)"%string.
Proof.
  destruct (report_icon_follows_priority sampleNumberToString sampleDate
              sampleClock) as [_ Hcolour].
  split; [reflexivity|].
  apply Hcolour; [reflexivity | left; reflexivity].
Defined.

(** X17 at a marker on the centre and one 20000 m away, with radii of
    15000 m and 25000 m, and with a radius that is NaN. *)
Lemma pinsWithin_grows_with_the_radius_witness :
  (15000 <=? 25000)%float = true /\
  pinsWithin (float * float) Leaflet_latLng sampleDistance
    [eventMarker centerEvent; eventMarker eventB]
    (13.0827, 80.2707)%float 15000 = Normal [eventMarker centerEvent] /\
  (exists wide,
      pinsWithin (float * float) Leaflet_latLng sampleDistance
        [eventMarker centerEvent; eventMarker eventB]
        (13.0827, 80.2707)%float 25000 = Normal wide /\
      In (eventMarker centerEvent) wide) /\
  is_nan nan = true /\
  pinsWithin (float * float) Leaflet_latLng sampleDistance
    [eventMarker centerEvent; eventMarker eventB]
    (13.0827, 80.2707)%float nan = Normal [].
Proof.
  destruct (pinsWithin_grows_with_the_radius (float * float)%type
              Leaflet_latLng sampleDistance
              [eventMarker centerEvent; eventMarker eventB]
              (13.0827, 80.2707)%float) as [Hgrow Hnan].
  split; [reflexivity|]. split; [reflexivity|]. split.
  - destruct (Hgrow 15000%float 25000%float [eventMarker centerEvent]
                eq_refl eq_refl) as [wide [Hrun Hincl]].
    exists wide. split; [exact Hrun|]. apply Hincl. left. reflexivity.
  - split; [reflexivity|].
    destruct (pinsWithin (float * float) Leaflet_latLng sampleDistance
                [eventMarker centerEvent; eventMarker eventB]
                (13.0827, 80.2707)%float nan) as [near|e] eqn:E.
    + f_equal. exact (Hnan nan near eq_refl E).
    + vm_compute in E. discriminate E.
Defined.

(** X20 at a [Date] constructor that throws, and at a string that is
    no date. *)
Lemma timestamps_never_throw_witness :
  throwingDate (treatAsUTC (JSString "2026-01-01 00:00:00"))
    = Throw TypeError /\
  getTimeAgo throwingDate (fun _ => "1/1/2026"%string) sampleNow
    (JSString "2026-01-01 00:00:00") = Normal (TimeText "Unknown time") /\
  sampleDate (treatAsUTC (JSString "yesterday")) = Normal None /\
  formatUTCTimestamp sampleDate (fun _ => "1/1/2026, 12:00:00 AM"%string)
    (JSString "yesterday") = Normal "Invalid date"%string.
Proof.
  destruct (timestamps_never_throw throwingDate
              (fun _ => "1/1/2026, 12:00:00 AM"%string)
              (fun _ => "1/1/2026"%string) sampleNow
              (JSString "2026-01-01 00:00:00")) as [_ [_ [Hthrow _]]].
  destruct (timestamps_never_throw sampleDate
              (fun _ => "1/1/2026, 12:00:00 AM"%string)
              (fun _ => "1/1/2026"%string) sampleNow
              (JSString "yesterday")) as [_ [_ [_ Hinvalid]]].
  split; [reflexivity|]. split.
  - apply Hthrow. right. exists TypeError. reflexivity.
  - split; [reflexivity|]. apply Hinvalid; reflexivity.
Defined.
